(** * trippy-tracker: click / open / conversion tracking redirector

    Shallow embedding of [src/server.mjs].  The file holds two variants of
    the server: the flat-file variant (events appended to [events.jsonl])
    and the sqlite variant (events inserted into the tables [clicks] and
    [opens]).  Each variant is embedded in a module of its own, after the
    JavaScript builtins both of them call.

    JavaScript strings are modelled by [string]; a character stands for
    one code unit, so the strings of the model are the JavaScript strings
    whose code units are below 256. *)

From Stdlib Require Import ZArith Ascii String List Permutation Sorted Lia.
From stdpp Require Import base decidable option list gmap strings.

Local Open Scope string_scope.
Local Open Scope Z_scope.

(* Appending to a string that starts with a known code unit unfolds. *)
#[local] Arguments String.append !_ _ / : simpl nomatch.

(** ** Exceptions and results *)

(** What a JavaScript call can throw (or an awaited promise reject with). *)
Inductive error : Type :=
  | TypeError                      (* calling a non-function, invalid URL *)
  | SyntaxError                    (* JSON.parse *)
  | CryptoError                    (* thrown inside the crypto module *)
  | FsError (code : string)        (* fs.promises.*, [e.code] *)
  | DbError (message : string).    (* sqlite3, the [err] of the callback *)

(** [e.code] *)
Definition error_code (e : error) : option string :=
  match e with
  | FsError code => Some code
  | _ => None
  end.

Inductive result (A : Type) : Type :=
  | Ok (a : A)
  | Throw (e : error).
Arguments Ok {A} a.
Arguments Throw {A} e.

#[global] Instance result_ret : MRet result := fun A a => Ok a.

#[global] Instance result_bind : MBind result := fun A B k r =>
  match r with
  | Ok a => k a
  | Throw e => Throw e
  end.

(** ** String builtins *)

(** [s.indexOf(sep)] scanning from position [i] of the whole string, where
    [s] is what is left of it. *)
Fixpoint indexOf_from (sep s : string) (i : Z) : Z :=
  if String.prefix sep s then i
  else match s with
       | EmptyString => -1
       | String _ s' => indexOf_from sep s' (i + 1)
       end.

Definition indexOf (s sep : string) : Z := indexOf_from sep s 0.

(** [s.slice(start, end)], negative arguments counting from the end. *)
Definition slice (s : string) (start end_ : Z) : string :=
  let len := Z.of_nat (String.length s) in
  let from := if start <? 0 then Z.max (len + start) 0 else Z.min start len in
  let to := if end_ <? 0 then Z.max (len + end_) 0 else Z.min end_ len in
  String.substring (Z.to_nat from) (Z.to_nat (Z.max (to - from) 0)) s.

(** Truthiness of a string: [Boolean(s)], [!s], [s || d]. *)
Definition truthy_string (s : string) : bool :=
  match s with
  | EmptyString => false
  | String _ _ => true
  end.

(** [s || d] on strings. *)
Definition or_else (s d : string) : string :=
  if truthy_string s then s else d.

(** White space and line terminators that [trim] strips, among the code
    units below 256: TAB, LF, VT, FF, CR, SP and NBSP. *)
Definition is_white_space (c : ascii) : bool :=
  let n := N_of_ascii c in
  ((9 <=? n) && (n <=? 13) || (n =? 32) || (n =? 160))%N.

Fixpoint trimStart (s : string) : string :=
  match s with
  | EmptyString => EmptyString
  | String c s' => if is_white_space c then trimStart s' else s
  end.

Fixpoint trimEnd (s : string) : string :=
  match s with
  | EmptyString => EmptyString
  | String c s' =>
      let t := trimEnd s' in
      if is_white_space c && negb (truthy_string t) then EmptyString
      else String c t
  end.

Definition trim (s : string) : string := trimEnd (trimStart s).

(** [s.split(sep)] for a separator of one code unit, as the source calls
    it (["\n"] and [","]). *)
Fixpoint split (sep : ascii) (s : string) : list string :=
  match s with
  | EmptyString => [EmptyString]
  | String c s' =>
      if Ascii.eqb c sep then EmptyString :: split sep s'
      else match split sep s' with
           | piece :: pieces => String c piece :: pieces
           | [] => [String c EmptyString]
           end
  end.

(** [pieces.join(sep)]. *)
Fixpoint join (sep : string) (pieces : list string) : string :=
  match pieces with
  | [] => EmptyString
  | [piece] => piece
  | piece :: rest => piece +:+ sep +:+ join sep rest
  end.

(** [haystack.includes(needle)]. *)
Definition includes (haystack needle : string) : bool :=
  negb (indexOf haystack needle =? -1).

Definition newline : ascii := ascii_of_N 10.
Definition comma : ascii := ascii_of_N 44.

(** *** Hexadecimal digits and percent encoding *)

Definition hex_digit (upper : bool) (n : N) : ascii :=
  if (n <? 10)%N then ascii_of_N (48 + n)
  else ascii_of_N ((if upper then 55 else 87) + n).

Definition hex_byte (upper : bool) (n : N) : string :=
  String (hex_digit upper (n / 16)) (String (hex_digit upper (n mod 16)) EmptyString).

(** The UTF-8 bytes of one code unit below 256, each written [%XX]. *)
Definition percent_encode (c : ascii) : string :=
  let n := N_of_ascii c in
  if (n <? 128)%N then "%" +:+ hex_byte true n
  else "%" +:+ hex_byte true (192 + n / 64) +:+ "%" +:+ hex_byte true (128 + n mod 64).

Definition is_alphanumeric (c : ascii) : bool :=
  let n := N_of_ascii c in
  ((48 <=? n) && (n <=? 57) || (65 <=? n) && (n <=? 90) || (97 <=? n) && (n <=? 122))%N.

Definition one_of (chars : string) (c : ascii) : bool :=
  existsb (Ascii.eqb c) (list_ascii_of_string chars).

Fixpoint map_chars (f : ascii -> string) (s : string) : string :=
  match s with
  | EmptyString => EmptyString
  | String c s' => f c +:+ map_chars f s'
  end.

(** [encodeURIComponent(s)]: everything is escaped but letters, digits and
    [- _ . ! ~ * ' ( )]. *)
Definition encodeURIComponent (s : string) : string :=
  map_chars (fun c =>
    if is_alphanumeric c || one_of "-_.!~*'()" c then String c EmptyString
    else percent_encode c) s.

(** The [application/x-www-form-urlencoded] serializer of URLSearchParams:
    letters, digits and [* - . _] stay, a space becomes [+]. *)
Definition form_urlencode (s : string) : string :=
  map_chars (fun c =>
    if is_alphanumeric c || one_of "*-._" c then String c EmptyString
    else if Ascii.eqb c " " then "+"
    else percent_encode c) s.

(** *** The Location header *)

Definition is_hex_digit (c : ascii) : bool :=
  let n := N_of_ascii c in
  ((48 <=? n) && (n <=? 57) || (65 <=? n) && (n <=? 70) || (97 <=? n) && (n <=? 102))%N.

(** [encodeURI] on one code unit: letters, digits and
    [; / ? : @ & = + $ , # - _ . ! ~ * ' ( )] stay. *)
Definition encodeURI_char (c : ascii) : string :=
  if is_alphanumeric c || one_of ";/?:@&=+$,#-_.!~*'()" c then String c EmptyString
  else percent_encode c.

(** The code units the pattern of [encodeUrl] passes over:
    [\x21 \x23-\x3B \x3D \x3F-\x5F \x61-\x7A \x7C \x7E]. *)
Definition url_char (c : ascii) : bool :=
  let n := N_of_ascii c in
  ((n =? 33) || (35 <=? n) && (n <=? 59) || (n =? 61) || (63 <=? n) && (n <=? 95)
   || (97 <=? n) && (n <=? 122) || (n =? 124) || (n =? 126))%N.

(** [encodeUrl(url)] of the package encodeurl (version 2, which Express
    4.20 and later load), which [res.location] and [res.redirect] of
    Express pass the URL through: every run of code
    units outside [url_char], and every [%] that does not start an escape,
    together with the one or two code units the pattern reads after it,
    goes through [encodeURI].  [pending] counts the code units already
    read into such a run. *)
Fixpoint encodeUrl_from (pending : nat) (s : string) : string :=
  match s with
  | EmptyString => EmptyString
  | String c s' =>
      match pending with
      | S pending' => encodeURI_char c +:+ encodeUrl_from pending' s'
      | O =>
          if Ascii.eqb c "%" then
            match s' with
            | EmptyString => "%25"
            | String x s'' =>
                if negb (is_hex_digit x) then "%25" +:+ encodeUrl_from 1 s'
                else match s'' with
                     | EmptyString => String c (encodeUrl_from 0 s')
                     | String y _ =>
                         if negb (is_hex_digit y) then "%25" +:+ encodeUrl_from 2 s'
                         else String c (encodeUrl_from 0 s')
                     end
            end
          else if url_char c then String c (encodeUrl_from 0 s')
          else encodeURI_char c +:+ encodeUrl_from 0 s'
      end
  end.

Definition encodeUrl (url : string) : string := encodeUrl_from 0 url.

(** *** JSON.stringify *)

Definition json_escape (c : ascii) : string :=
  let n := N_of_ascii c in
  if (n =? 34)%N then "\" +:+ String c EmptyString
  else if (n =? 92)%N then "\\"
  else if (n =? 8)%N then "\b"
  else if (n =? 12)%N then "\f"
  else if (n =? 10)%N then "\n"
  else if (n =? 13)%N then "\r"
  else if (n =? 9)%N then "\t"
  else if (n <? 32)%N then "\u00" +:+ hex_byte false n
  else String c EmptyString.

Definition quote : string := String (ascii_of_N 34) EmptyString.

Definition JSON_stringify_string (s : string) : string :=
  quote +:+ map_chars json_escape s +:+ quote.

(** ** The data model *)

(** The object literal [ev] the handlers build; every member is a string. *)
Record Event : Type := {
  type : string;
  lead_id : string;
  campaign : string;
  industry : string;
  ts : string;
  user_agent : string;
  ip_hash : string;
}.

(** [JSON.stringify(ev)]: the members in the order of the literal. *)
Definition JSON_stringify (ev : Event) : string :=
  let member (k v : string) := JSON_stringify_string k +:+ ":" +:+ JSON_stringify_string v in
  "{" +:+ join ","
    [ member "type" (type ev); member "lead_id" (lead_id ev);
      member "campaign" (campaign ev); member "industry" (industry ev);
      member "ts" (ts ev); member "user_agent" (user_agent ev);
      member "ip_hash" (ip_hash ev) ] +:+ "}".

(** What [JSON.parse] gives for one stored line.  The aggregation reads
    [type], [campaign] and [lead_id] of objects only, and nothing of any
    other value: an object is an event record, every other value (null, a
    boolean, a number, a string, an array) is kept with its truthiness. *)
Inductive json_value : Type :=
  | JObject (e : Event)
  | JOther (truthy : bool).

(** [Boolean(v)]; an object is always truthy. *)
Definition Boolean (v : json_value) : bool :=
  match v with
  | JObject _ => true
  | JOther t => t
  end.

(** A parsed URL: what comes before the query, the query as the list
    [url.searchParams] iterates, and the fragment with its [#]. *)
Record URL : Type := {
  url_base : string;
  searchParams : list (string * string);
  url_hash : string;
}.

(** [url.searchParams.set(name, value)]: the first pair named [name] takes
    the value and the later ones go; without one the pair is appended. *)
Fixpoint searchParams_set (ps : list (string * string)) (name value : string)
  : list (string * string) :=
  match ps with
  | [] => [(name, value)]
  | (k, v) :: ps' =>
      if String.eqb k name
      then (name, value) :: List.filter (fun p => negb (String.eqb (fst p) name)) ps'
      else (k, v) :: searchParams_set ps' name value
  end.

(** [url.searchParams.get(name)]: the value of the first pair named so. *)
Fixpoint searchParams_get (ps : list (string * string)) (name : string) : option string :=
  match ps with
  | [] => None
  | (k, v) :: ps' => if String.eqb k name then Some v else searchParams_get ps' name
  end.

Definition URL_set (u : URL) (name value : string) : URL :=
  {| url_base := url_base u;
     searchParams := searchParams_set (searchParams u) name value;
     url_hash := url_hash u |}.

Definition serialize_param (p : string * string) : string :=
  form_urlencode (fst p) +:+ "=" +:+ form_urlencode (snd p).

(** [url.toString()] once [searchParams] has been written to: the query is
    the serialized list, and there is none when the list is empty. *)
Definition URL_toString (u : URL) : string :=
  url_base u +:+
  (match searchParams u with
   | [] => EmptyString
   | ps => "?" +:+ join "&" (map serialize_param ps)
   end) +:+ url_hash u.

(** The builtins of the platform the embedding does not look into. *)
Class Runtime : Type := {
  (** [crypto.createHash("sha256").update(s).digest("hex")] *)
  sha256_hex : string -> result string;
  (** [JSON.parse(line)] *)
  JSON_parse : string -> result json_value;
  (** [new URL(s)] *)
  URL_new : string -> result URL;
}.

(** ** Requests and responses *)

(** The parts of an Express request the handlers read.  A query parameter
    is absent or one string. *)
Record Request : Type := {
  params_lead_id : string;                  (* req.params.lead_id *)
  query_c : option string;                  (* req.query.c *)
  query_lid : option string;                (* req.query.lid *)
  header_user_agent : option string;        (* user-agent *)
  header_x_forwarded_for : option string;   (* x-forwarded-for *)
  socket_remoteAddress : option string;     (* req.socket.remoteAddress *)
  req_ip : option string;                   (* req.ip *)
}.

(** A row of a table of the stats page: [campaign], [total], [unique]. *)
Record Row : Type := {
  row_campaign : string;
  total : nat;
  unique : nat;
}.

Inductive Body : Type :=
  | Text (s : string)                       (* res.send(string) *)
  | Image (base64 : string)                 (* res.send(Buffer.from(base64, "base64")) *)
  | NoBody                                  (* res.end() *)
  | RedirectNotice                          (* what res.redirect writes *)
  | StatsPage (clickRows openRows conversionRows : list Row).
                                            (* the tables of the stats template *)

Record Response : Type := {
  status : Z;
  location : option string;
  content_type : option string;
  cache_control : option string;
  body : Body;
}.

(** [res.redirect(code, url)]: the Location header is the URL passed
    through [encodeUrl]. *)
Definition redirect (code : Z) (url : string) : Response :=
  {| status := code; location := Some (encodeUrl url); content_type := None;
     cache_control := None; body := RedirectNotice |}.

(** How a handler ends: it has sent a response, or its promise rejects
    before any response was sent. *)
Inductive outcome : Type :=
  | Sent (r : Response)
  | Rejected (e : error).

(** [String(v || "")] for an absent or string value. *)
Definition String_or_empty (v : option string) : string :=
  match v with
  | Some s => s
  | None => EmptyString
  end.

(** ** Plain objects used as maps *)

(** The own properties of an object created by [{}], in creation order. *)
Abbreviation object A := (list (string * A)).

(** The members every plain object inherits from [Object.prototype]. *)
Definition Object_prototype_keys : list string :=
  [ "constructor"; "__defineGetter__"; "__defineSetter__"; "hasOwnProperty";
    "__lookupGetter__"; "__lookupSetter__"; "isPrototypeOf";
    "propertyIsEnumerable"; "toString"; "valueOf"; "__proto__";
    "toLocaleString" ].

Definition inherited (k : string) : bool :=
  bool_decide (k ∈ Object_prototype_keys).

(** [o[k]] for an own property. *)
Fixpoint get_own {A} (o : object A) (k : string) : option A :=
  match o with
  | [] => None
  | (k', a) :: o' => if String.eqb k' k then Some a else get_own o' k
  end.

(** [o[k] = a] for a key that is not inherited: an own property keeps its
    place, a new one goes last. *)
Fixpoint set_own {A} (o : object A) (k : string) (a : A) : object A :=
  match o with
  | [] => [(k, a)]
  | (k', a') :: o' =>
      if String.eqb k' k then (k', a) :: o' else (k', a') :: set_own o' k a
  end.

(** The value of a string of decimal digits. *)
Fixpoint decimal_value (acc : N) (s : string) : option N :=
  match s with
  | EmptyString => Some acc
  | String c s' =>
      let n := N_of_ascii c in
      if ((48 <=? n) && (n <=? 57))%N
      then decimal_value (10 * acc + (n - 48))%N s'
      else None
  end.

(** An array index: the canonical decimal form of an integer below
    [2^32 - 1]. *)
Definition array_index (k : string) : option N :=
  match k with
  | EmptyString => None
  | String c rest =>
      if Ascii.eqb c "0" && truthy_string rest then None
      else match decimal_value 0 k with
           | Some n => if (n <? 4294967295)%N then Some n else None
           | None => None
           end
  end.

(** [array.sort(compare)]: a stable sort; [x], which comes before all of
    [sorted] in the array, goes past the elements it compares greater to. *)
Fixpoint sort_insert {A} (compare : A -> A -> Z) (x : A) (sorted : list A) : list A :=
  match sorted with
  | [] => [x]
  | y :: sorted' =>
      if 0 <? compare x y then y :: sort_insert compare x sorted'
      else x :: sorted
  end.

Definition sort {A} (compare : A -> A -> Z) (l : list A) : list A :=
  foldr (sort_insert compare) [] l.

(** [Object.keys(o)]: the array indices in ascending order, then the other
    keys in creation order. *)
Definition Object_keys {A} (o : object A) : list string :=
  let keys := map fst o in
  let index_of k := match array_index k with Some n => Z.of_N n | None => 0 end in
  sort (fun a b => index_of a - index_of b)
       (List.filter (fun k => bool_decide (is_Some (array_index k))) keys)
  ++ List.filter (fun k => negb (bool_decide (is_Some (array_index k)))) keys.

(** ** The flat-file variant *)

Module Flat.

(** The environment the process starts in. *)
Record Env : Type := {
  env_LANDING_BASE : option string;       (* process.env.LANDING_BASE *)
}.

(** [const LANDING_BASE = (process.env.LANDING_BASE || "").trim()] *)
Definition LANDING_BASE (env : Env) : string :=
  trim (String_or_empty (env_LANDING_BASE env)).

(** The file at [EVENTS_PATH]: its content when it exists, and the errno
    code the file system answers a read or an append with when it fails
    them. *)
Record Store : Type := {
  events_file : option string;
  read_fault : option string;
  write_fault : option string;
}.

(** [fs.promises.readFile(EVENTS_PATH, "utf8")] *)
Definition readFile (st : Store) : result string :=
  match read_fault st with
  | Some code => Throw (FsError code)
  | None =>
      match events_file st with
      | Some data => Ok data
      | None => Throw (FsError "ENOENT")
      end
  end.

(** [fs.promises.appendFile(EVENTS_PATH, line, "utf8")]: the file is
    created when it does not exist. *)
Definition appendFile (st : Store) (line : string) : Store * result unit :=
  match write_fault st with
  | Some code => (st, Throw (FsError code))
  | None =>
      ({| events_file := Some (String_or_empty (events_file st) +:+ line);
          read_fault := read_fault st;
          write_fault := write_fault st |}, Ok tt)
  end.

Section WithRuntime.
Context {runtime : Runtime}.

Definition ipHash (ip : string) : string :=
  match sha256_hex (or_else ip EmptyString) with
  | Ok digest => slice digest 0 16
  | Throw _ => EmptyString
  end.

Definition appendEvent (st : Store) (ev : Event) : Store * result unit :=
  let line := JSON_stringify ev +:+ String newline EmptyString in
  appendFile st line.

(** The callback of [.map] in [readEvents]. *)
Definition parse_line (l : string) : option json_value :=
  match JSON_parse l with
  | Ok v => Some v
  | Throw _ => None
  end.

(** [.filter(Boolean)] on the mapped lines, [null] for a line that
    does not parse. *)
Definition keep (parsed : option json_value) : option json_value :=
  match parsed with
  | Some v => if Boolean v then Some v else None
  | None => None
  end.

Definition readEvents (st : Store) : result (list json_value) :=
  match readFile st with
  | Ok data =>
      Ok (omap keep
            (map parse_line
               (List.filter truthy_string (split newline data))))
  | Throw e =>
      if bool_decide (error_code e = Some "ENOENT") then Ok [] else Throw e
  end.

(** [campaign.indexOf("_v")], campaign like "restaurants_v1". *)
Definition pickIndustryFromCampaign (campaign : string) : string :=
  let idx := indexOf campaign "_v" in
  if 0 <? idx then slice campaign 0 idx else EmptyString.

Definition PIXEL_GIF : string :=
  "R0lGODlhAQABAIAAAAAAAP///ywAAAAAAQABAAACAUwAOw==".

(** The address the handlers hash: the first entry of
    [x-forwarded-for], else the socket's address, else nothing. *)
Definition client_ip (req : Request) : string :=
  let forwarded :=
    match header_x_forwarded_for req with
    | Some h =>
        match split comma h with
        | first :: _ => trim first
        | [] => EmptyString
        end
    | None => EmptyString
    end in
  or_else forwarded (or_else (String_or_empty (socket_remoteAddress req)) EmptyString).

(** The object literal [ev] of the three handlers, [nowIso()] read
    as [now]. *)
Definition event_of (type_ lead : string) (now : string) (req : Request) : Event :=
  let campaign_ := String_or_empty (query_c req) in
  {| type := type_;
     lead_id := lead;
     campaign := campaign_;
     industry := pickIndustryFromCampaign campaign_;
     ts := now;
     user_agent := or_else (String_or_empty (header_user_agent req)) EmptyString;
     ip_hash := ipHash (client_ip req) |}.

(** [try { await appendEvent(ev); } catch {}] *)
Definition record (st : Store) (ev : Event) : Store :=
  fst (appendEvent st ev).

(** [app.get("/r/:lead_id", ...)] *)
Definition click (env : Env) (now : string) (st : Store) (req : Request)
  : Store * outcome :=
  let lead := params_lead_id req in
  let campaign_ := String_or_empty (query_c req) in
  let ev := event_of "click" lead now req in
  let st' := record st ev in
  if negb (truthy_string (LANDING_BASE env)) then
    (st', Sent {| status := 500; location := None; content_type := None;
                  cache_control := None;
                  body := Text "LANDING_BASE not configured" |})
  else
    match URL_new (LANDING_BASE env) with
    | Throw e => (st', Rejected e)
    | Ok url =>
        let url := URL_set url "lid" lead in
        let url := if truthy_string campaign_
                   then URL_set url "utm_campaign" campaign_ else url in
        let url := URL_set url "utm_source" "coldemail" in
        let url := URL_set url "utm_medium" "email" in
        let url := URL_set url "c" campaign_ in
        (st', Sent (redirect 302 (URL_toString url)))
    end.

(** [app.get("/o/:lead_id.png", ...)] *)
Definition open (now : string) (st : Store) (req : Request) : Store * outcome :=
  let ev := event_of "open" (params_lead_id req) now req in
  let st' := record st ev in
  (st', Sent {| status := 200; location := None;
                content_type := Some "image/gif";
                cache_control :=
                  Some "no-store, no-cache, must-revalidate, proxy-revalidate";
                body := Image PIXEL_GIF |}).

(** [app.get("/conv", ...)] *)
Definition conv (now : string) (st : Store) (req : Request) : Store * outcome :=
  let ev := event_of "conv" (String_or_empty (query_lid req)) now req in
  let st' := record st ev in
  (st', Sent {| status := 204; location := None; content_type := None;
                cache_control := None; body := NoBody |}).

(** One turn of the loop of [summarize].  For a campaign named like a
    member of [Object.prototype], [uniqueByCampaign[c]] is that member: it
    is truthy, so no set is made, and it has no [add], so the call throws.
    The loop never gets past such an event, and no such name is ever the
    key of an own property that is read. *)
Definition summarize_step
    (acc : object nat * object (gset string)) (e : Event)
  : result (object nat * object (gset string)) :=
  let '(totalsByCampaign, uniqueByCampaign) := acc in
  let c := or_else (campaign e) "(none)" in
  if inherited c then Throw TypeError
  else
    let totalsByCampaign :=
      set_own totalsByCampaign c (default 0%nat (get_own totalsByCampaign c) + 1)%nat in
    let leads := default ∅ (get_own uniqueByCampaign c) in
    let uniqueByCampaign := set_own uniqueByCampaign c ({[lead_id e]} ∪ leads) in
    Ok (totalsByCampaign, uniqueByCampaign).

Fixpoint summarize_loop
    (acc : object nat * object (gset string)) (events : list Event)
  : result (object nat * object (gset string)) :=
  match events with
  | [] => Ok acc
  | e :: rest => acc' ← summarize_step acc e; summarize_loop acc' rest
  end.

Definition summarize (events : list Event) : result (list Row) :=
  '(totalsByCampaign, uniqueByCampaign) ← summarize_loop ([], []) events;
  let total_of c := Z.of_nat (default 0%nat (get_own totalsByCampaign c)) in
  Ok (map (fun c =>
             {| row_campaign := c;
                total := default 0%nat (get_own totalsByCampaign c);
                unique := match get_own uniqueByCampaign c with
                          | Some leads => size leads
                          | None => 0%nat
                          end |})
          (sort (fun a b => total_of b - total_of a)
                (Object_keys totalsByCampaign))).

(** [events.filter((e) => e.type === t)]; only an object has a [type]. *)
Definition of_type (t : string) (events : list json_value) : list Event :=
  omap (fun v => match v with
                 | JObject e => if String.eqb (type e) t then Some e else None
                 | JOther _ => None
                 end) events.

(** [app.get("/stats", ...)] *)
Definition stats (st : Store) : outcome :=
  match readEvents st with
  | Throw e => Rejected e
  | Ok events =>
      let rows :=
        clickRows ← summarize (of_type "click" events);
        openRows ← summarize (of_type "open" events);
        conversionRows ← summarize (of_type "conv" events);
        Ok (clickRows, openRows, conversionRows) in
      match rows with
      | Throw e => Rejected e
      | Ok (clickRows, openRows, conversionRows) =>
          Sent {| status := 200; location := None;
                  content_type := Some "text/html; charset=utf-8";
                  cache_control := None;
                  body := StatsPage clickRows openRows conversionRows |}
      end
  end.

End WithRuntime.

End Flat.

(** ** The sqlite variant *)

Module Sqlite.

Record Env : Type := {
  env_LANDING_BASE : option string;       (* process.env.LANDING_BASE *)
}.

(** [const LANDING_BASE = process.env.LANDING_BASE || ""] *)
Definition LANDING_BASE (env : Env) : string :=
  or_else (String_or_empty (env_LANDING_BASE env)) EmptyString.

(** A row of [clicks] or [opens]. *)
Record TableRow : Type := {
  id : nat;
  lead_id : string;
  campaign : string;
  industry : string;
  ts : string;
  user_agent : string;
  ip_hash : string;
}.

(** The database: the two tables, and the error sqlite answers a
    statement with when it fails it. *)
Record Db : Type := {
  clicks : list TableRow;
  opens : list TableRow;
  db_fault : option string;
}.

Inductive table : Type := Clicks | Opens.

(** [run("INSERT INTO <table> (lead_id, campaign, industry, ts,
    user_agent, ip_hash) VALUES (?, ?, ?, ?, ?, ?)", params)] *)
Definition run_insert (db : Db) (t : table)
    (lead camp ind time ua hash : string) : Db * result unit :=
  match db_fault db with
  | Some message => (db, Throw (DbError message))
  | None =>
      let row rows :=
        {| id := S (foldr (fun r m => Nat.max (id r) m) 0%nat rows);
           lead_id := lead; campaign := camp; industry := ind;
           ts := time; user_agent := ua; ip_hash := hash |} in
      match t with
      | Clicks => ({| clicks := clicks db ++ [row (clicks db)];
                      opens := opens db; db_fault := None |}, Ok tt)
      | Opens => ({| clicks := clicks db;
                     opens := opens db ++ [row (opens db)];
                     db_fault := None |}, Ok tt)
      end
  end.

Definition getIndustryFromCampaign (campaign : string) : string :=
  if negb (truthy_string campaign) then EmptyString
  else
    let idx := indexOf campaign "_" in
    if idx =? -1 then campaign else slice campaign 0 idx.

Definition PIXEL_PNG : string :=
  "iVBORw0KGgoAAAANSUhEUgAAAAEAAAABCAQAAAC1HAwCAAAAC0lEQVR42mP8/x8AAwMCAO0G0b8AAAAASUVORK5CYII=".

Section WithRuntime.
Context {runtime : Runtime}.

Definition hashIp (ip : option string) : result string :=
  sha256_hex (or_else (String_or_empty ip) EmptyString).

(** [app.get("/r/:lead_id", ...)] *)
Definition click (env : Env) (now : string) (db : Db) (req : Request)
  : Db * outcome :=
  let leadId := params_lead_id req in
  let campaign_ := String_or_empty (query_c req) in
  let industry_ := getIndustryFromCampaign campaign_ in
  let ua := or_else (String_or_empty (header_user_agent req)) EmptyString in
  match hashIp (req_ip req) with
  | Throw e => (db, Rejected e)
  | Ok ipHash =>
      match run_insert db Clicks leadId campaign_ industry_ now ua ipHash with
      | (db', Throw e) => (db', Rejected e)
      | (db', Ok _) =>
          let landing := or_else (LANDING_BASE env) EmptyString in
          let redirectUrl :=
            if truthy_string landing
            then landing +:+ "?lid=" +:+ encodeURIComponent leadId
                 +:+ "&utm_campaign=" +:+ encodeURIComponent campaign_
            else "/stats" in
          (db', Sent (redirect 302 redirectUrl))
      end
  end.

(** [app.get("/o/:lead_id.png", ...)] *)
Definition open (now : string) (db : Db) (req : Request) : Db * outcome :=
  let leadId := params_lead_id req in
  let campaign_ := String_or_empty (query_c req) in
  let industry_ := getIndustryFromCampaign campaign_ in
  let ua := or_else (String_or_empty (header_user_agent req)) EmptyString in
  match hashIp (req_ip req) with
  | Throw e => (db, Rejected e)
  | Ok ipHash =>
      match run_insert db Opens leadId campaign_ industry_ now ua ipHash with
      | (db', Throw e) => (db', Rejected e)
      | (db', Ok _) =>
          (db', Sent {| status := 200; location := None;
                        content_type := Some "image/png";
                        cache_control :=
                          Some "no-store, no-cache, must-revalidate, max-age=0";
                        body := Image PIXEL_PNG |})
      end
  end.

End WithRuntime.

End Sqlite.

(** ** The vocabulary of the statements *)

(** *** Occurrences of a separator *)

(** [sep] occurs in [s] at position [i]. *)
Definition occurs_at (sep s : string) (i : nat) : Prop :=
  exists pre post, s = pre +:+ sep +:+ post /\ String.length pre = i.

(** [pre] is the part of [s] before the first occurrence of [sep]. *)
Definition before_first (sep s pre : string) : Prop :=
  (exists post, s = pre +:+ sep +:+ post) /\
  forall j, (j < String.length pre)%nat -> ~ occurs_at sep s j.

(** [sep] occurs nowhere in [s]. *)
Definition absent (sep s : string) : Prop :=
  forall j, ~ occurs_at sep s j.

(** *** Lines and records *)

(** [s] has no code unit [c]. *)
Fixpoint free_of (c : ascii) (s : string) : bool :=
  match s with
  | EmptyString => true
  | String d s' => negb (Ascii.eqb d c) && free_of c s'
  end.

(** The record a stored line stands for: none for an empty line, for a
    line that does not parse, and for a line that parses to a falsy value
    (null, false, 0, the empty string), which is no record. *)
Definition record_of_line `{Runtime} (l : string) : list json_value :=
  if truthy_string l then
    match JSON_parse l with
    | Ok v => if Boolean v then [v] else []
    | Throw _ => []
    end
  else [].

Definition records_of `{Runtime} (lines : list string) : list json_value :=
  flat_map record_of_line lines.

(** *** Counts per campaign *)

(** The key an event is counted under: [e.campaign || "(none)"]. *)
Definition campaign_key (e : Event) : string := or_else (campaign e) "(none)".

(** The number of events that carry the campaign [c]. *)
Fixpoint count_for (c : string) (events : list Event) : nat :=
  match events with
  | [] => 0
  | e :: rest => (if decide (campaign_key e = c) then 1 else 0) + count_for c rest
  end%nat.

(** The leads of the events that carry the campaign [c]. *)
Fixpoint leads_for (c : string) (events : list Event) : gset string :=
  match events with
  | [] => ∅
  | e :: rest =>
      (if decide (campaign_key e = c) then {[lead_id e]} else ∅) ∪ leads_for c rest
  end.

(** No event is filed under a member of [Object.prototype]. *)
Definition plain_keys (events : list Event) : Prop :=
  Forall (fun e => inherited (campaign_key e) = false) events.

(** The row of the campaign [c] in the report on [events]. *)
Definition row_for (c : string) (events : list Event) : Row :=
  {| row_campaign := c; total := count_for c events;
     unique := size (leads_for c events) |}.

(** What [n] more events make of an entry of [totalsByCampaign]. *)
Definition tally (entry : option nat) (n : nat) : option nat :=
  match n with
  | O => entry
  | S _ => Some (default 0 entry + n)%nat
  end.

(** What [n] more events, with the leads [leads], make of an entry of
    [uniqueByCampaign]. *)
Definition gather (entry : option (gset string)) (n : nat) (leads : gset string)
  : option (gset string) :=
  match n with
  | O => entry
  | S _ => Some (leads ∪ default ∅ entry)
  end.

(** ** Sample data *)

Definition sample_now : string := "2024-05-01T10:00:00.000Z".

Definition sample_event : Event :=
  {| type := "click"; lead_id := "lead"; campaign := "restaurants_v1";
     industry := "restaurants"; ts := sample_now;
     user_agent := "curl/8.0"; ip_hash := "fec52565aa0cf18f" |}.

(** The builtins as Node answers on the inputs of the examples: the
    digests of "203.0.113.7" and of the empty string, two lines that
    parse, one landing page. *)
Definition sample_runtime : Runtime :=
  {| sha256_hex s :=
       Ok (if String.eqb s "203.0.113.7"
           then "fec52565aa0cf18f57d7cf5b3ac728503b8992d2d6f7d46da1d1201090902b02"
           else "e3b0c44298fc1c149afbf4c8996fb92427ae41e4649b934ca495991b7852b855");
     JSON_parse l :=
       if String.eqb l (JSON_stringify sample_event) then Ok (JObject sample_event)
       else if String.eqb l "null" then Ok (JOther false)
       else if String.eqb l "7" then Ok (JOther true)
       else Throw SyntaxError;
     URL_new s :=
       if String.eqb s "https://example.com/land"
       then Ok {| url_base := "https://example.com/land"; searchParams := [];
                  url_hash := EmptyString |}
       else Throw TypeError |}.

(** A runtime whose crypto module throws. *)
Definition no_crypto_runtime : Runtime :=
  {| sha256_hex _ := Throw CryptoError;
     JSON_parse := @JSON_parse sample_runtime;
     URL_new := @URL_new sample_runtime |}.

Definition sample_request : Request :=
  {| params_lead_id := "lead"; query_c := Some "camp"; query_lid := Some "lead";
     header_user_agent := Some "curl/8.0";
     header_x_forwarded_for := Some "203.0.113.7, 10.0.0.1";
     socket_remoteAddress := Some "10.0.0.1";
     req_ip := Some "203.0.113.7" |}.

Definition sample_digest : string :=
  "fec52565aa0cf18f57d7cf5b3ac728503b8992d2d6f7d46da1d1201090902b02".

Definition empty_store : Flat.Store :=
  {| Flat.events_file := None; Flat.read_fault := None; Flat.write_fault := None |}.

Definition full_disk : Flat.Store :=
  {| Flat.events_file := Some EmptyString; Flat.read_fault := None;
     Flat.write_fault := Some "ENOSPC" |}.

Definition unreadable_store : Flat.Store :=
  {| Flat.events_file := Some EmptyString; Flat.read_fault := Some "EACCES";
     Flat.write_fault := None |}.

Definition empty_db : Sqlite.Db :=
  {| Sqlite.clicks := []; Sqlite.opens := []; Sqlite.db_fault := None |}.

Definition locked_db : Sqlite.Db :=
  {| Sqlite.clicks := []; Sqlite.opens := [];
     Sqlite.db_fault := Some "SQLITE_BUSY: database is locked" |}.

Definition landing_env : Flat.Env :=
  {| Flat.env_LANDING_BASE := Some " https://example.com/land " |}.

Definition landing_env_sqlite : Sqlite.Env :=
  {| Sqlite.env_LANDING_BASE := Some "https://example.com/land" |}.

Definition no_campaign_request : Request :=
  {| params_lead_id := "lead"; query_c := None; query_lid := None;
     header_user_agent := None; header_x_forwarded_for := None;
     socket_remoteAddress := Some "203.0.113.7"; req_ip := Some "203.0.113.7" |}.


Definition empty_stats_page : Response :=
  {| status := 200; location := None;
     content_type := Some "text/html; charset=utf-8";
     cache_control := None; body := StatsPage [] [] [] |}.

Definition click_of (camp lead : string) : Event :=
  {| type := "click"; lead_id := lead; campaign := camp; industry := EmptyString;
     ts := sample_now; user_agent := EmptyString; ip_hash := EmptyString |}.

(** Three clicks on the campaign "a" by two leads and one click on "b". *)
Definition sample_clicks : list Event :=
  [click_of "a" "lead1"; click_of "b" "lead3"; click_of "a" "lead2";
   click_of "a" "lead1"].

(** ** Sequences of requests *)

(** Every code unit of [s] passes [p]. *)
Fixpoint all_chars (p : ascii -> bool) (s : string) : bool :=
  match s with
  | EmptyString => true
  | String c s' => p c && all_chars p s'
  end.

(** The text of a file of complete lines: each line, then a line feed. *)
Fixpoint lines_text (lines : list string) : string :=
  match lines with
  | [] => EmptyString
  | l :: ls => l +:+ String newline (lines_text ls)
  end.

(** The events file holds the complete lines [lines] (none when it does
    not exist), and reads and appends go through. *)
Definition holds_lines (st : Flat.Store) (lines : list string) : Prop :=
  Flat.read_fault st = None /\ Flat.write_fault st = None /\
  String_or_empty (Flat.events_file st) = lines_text lines /\
  Forall (fun l => free_of newline l = true) lines.

(** The tracking routes of the flat-file variant. *)
Inductive route : Type :=
  | GET_r                      (* /r/:lead_id *)
  | GET_o                      (* /o/:lead_id.png *)
  | GET_conv.                  (* /conv *)

(** One tracking request: its route, the time it is handled at, and what
    the handler reads of it. *)
Record Hit : Type := {
  hit_route : route;
  hit_now : string;
  hit_request : Request;
}.

(** The handler the router calls for a request. *)
Definition serve `{Runtime} (env : Flat.Env) (st : Flat.Store) (h : Hit)
  : Flat.Store * outcome :=
  match hit_route h with
  | GET_r => Flat.click env (hit_now h) st (hit_request h)
  | GET_o => Flat.open (hit_now h) st (hit_request h)
  | GET_conv => Flat.conv (hit_now h) st (hit_request h)
  end.

(** The store after a sequence of requests, handled one after the other. *)
Fixpoint serve_all `{Runtime} (env : Flat.Env) (st : Flat.Store) (hits : list Hit)
  : Flat.Store :=
  match hits with
  | [] => st
  | h :: hits' => serve_all env (fst (serve env st h)) hits'
  end.

(** The object literal [ev] the handler of a request builds. *)
Definition hit_event `{Runtime} (h : Hit) : Event :=
  match hit_route h with
  | GET_r => Flat.event_of "click" (params_lead_id (hit_request h)) (hit_now h) (hit_request h)
  | GET_o => Flat.event_of "open" (params_lead_id (hit_request h)) (hit_now h) (hit_request h)
  | GET_conv =>
      Flat.event_of "conv" (String_or_empty (query_lid (hit_request h)))
        (hit_now h) (hit_request h)
  end.

(** The [type] the handler of a route gives its event. *)
Definition route_type (r : route) : string :=
  match r with
  | GET_r => "click"
  | GET_o => "open"
  | GET_conv => "conv"
  end.

Definition route_eqb (r1 r2 : route) : bool :=
  match r1, r2 with
  | GET_r, GET_r | GET_o, GET_o | GET_conv, GET_conv => true
  | _, _ => false
  end.

(** The events of the requests to the route [r], in the order of the
    requests. *)
Definition events_of `{Runtime} (r : route) (hits : list Hit) : list Event :=
  map hit_event (List.filter (fun h => route_eqb (hit_route h) r) hits).

(** One request to the sqlite variant: [/r/:lead_id] fills [clicks],
    [/o/:lead_id.png] fills [opens]. *)
Record SqliteHit : Type := {
  sq_table : Sqlite.table;
  sq_now : string;
  sq_request : Request;
}.

Definition sqlite_serve `{Runtime} (env : Sqlite.Env) (db : Sqlite.Db) (h : SqliteHit)
  : Sqlite.Db * outcome :=
  match sq_table h with
  | Sqlite.Clicks => Sqlite.click env (sq_now h) db (sq_request h)
  | Sqlite.Opens => Sqlite.open (sq_now h) db (sq_request h)
  end.

Fixpoint sqlite_serve_all `{Runtime} (env : Sqlite.Env) (db : Sqlite.Db)
    (hits : list SqliteHit) : Sqlite.Db :=
  match hits with
  | [] => db
  | h :: hits' => sqlite_serve_all env (fst (sqlite_serve env db h)) hits'
  end.

(** The pairs of a query that are named [k]. *)
Definition named (k : string) (ps : list (string * string)) : list (string * string) :=
  List.filter (fun p => String.eqb (fst p) k) ps.

(** The code units [encodeURIComponent] writes: those it leaves as they
    are, and those of an escape. *)
Definition uri_component_char (c : ascii) : bool :=
  is_alphanumeric c || one_of "-_.!~*'()%" c.

Definition ampersand : ascii := ascii_of_N 38.

(** A code unit [encodeUrl] passes over wherever it stands. *)
Definition url_plain (c : ascii) : bool :=
  url_char c && negb (Ascii.eqb c "%").

(** A text of such code units and whole escapes [%XX]. *)
Inductive escaped : string -> Prop :=
  | escaped_nil : escaped EmptyString
  | escaped_char (c : ascii) (s : string) :
      url_plain c = true -> escaped s -> escaped (String c s)
  | escaped_triple (h1 h2 : ascii) (s : string) :
      is_hex_digit h1 = true -> is_hex_digit h2 = true -> escaped s ->
      escaped (String "%" (String h1 (String h2 s))).

(** The names the click handler of the flat-file variant sets. *)
Definition click_params : list string :=
  ["lid"; "utm_campaign"; "utm_source"; "utm_medium"; "c"].

(** A runtime whose [JSON.parse] knows the lines of the events [known],
    and no other line; the rest is as in [sample_runtime]. *)
Definition replay_runtime (known : list Event) : Runtime :=
  {| sha256_hex := @sha256_hex sample_runtime;
     JSON_parse l :=
       match List.find (fun ev => String.eqb (JSON_stringify ev) l) known with
       | Some ev => Ok (JObject ev)
       | None => Throw SyntaxError
       end;
     URL_new := @URL_new sample_runtime |}.

(** A landing page that carries parameters and a fragment of its own. *)
Definition tagged_landing : string :=
  "https://example.com/land?ref=mail&lid=old&lid=older#{top}".

Definition tagged_landing_env : Flat.Env :=
  {| Flat.env_LANDING_BASE := Some tagged_landing |}.

(** [sample_runtime] with [new URL] knowing [tagged_landing] as well. *)
Definition tagged_runtime : Runtime :=
  {| sha256_hex := @sha256_hex sample_runtime;
     JSON_parse := @JSON_parse sample_runtime;
     URL_new s :=
       if String.eqb s tagged_landing
       then Ok {| url_base := "https://example.com/land";
                  searchParams := [("ref", "mail"); ("lid", "old"); ("lid", "older")];
                  url_hash := "#{top}" |}
       else @URL_new sample_runtime s |}.

Definition sample_hit : Hit :=
  {| hit_route := GET_r; hit_now := sample_now; hit_request := sample_request |}.

Definition sample_open_hit : Hit :=
  {| hit_route := GET_o; hit_now := sample_now; hit_request := no_campaign_request |}.

(** A click on a link whose campaign is named [constructor]. *)
Definition constructor_hit : Hit :=
  {| hit_route := GET_r; hit_now := sample_now;
     hit_request :=
       {| params_lead_id := "lead"; query_c := Some "constructor";
          query_lid := None; header_user_agent := None;
          header_x_forwarded_for := None; socket_remoteAddress := None;
          req_ip := None |} |}.

(** * Properties *)

(** ** Strings *)

Lemma string_app_assoc (s1 s2 s3 : string) :
  (s1 +:+ s2) +:+ s3 = s1 +:+ (s2 +:+ s3).
Proof. induction s1 as [|c s1 IH]; simpl; [done | by rewrite IH]. Qed.

Lemma string_app_empty_r (s : string) : s +:+ EmptyString = s.
Proof. induction s as [|c s IH]; simpl; [done | by rewrite IH]. Qed.

Lemma prefix_app (sep s : string) :
  String.prefix sep s = true <-> exists post, s = sep +:+ post.
Proof.
  revert s. induction sep as [|c sep IH]; intros s; simpl.
  - split; [intros _; by exists s | by destruct s].
  - destruct s as [|d s]; simpl.
    + split; [done | by intros [post ?]].
    + destruct (ascii_dec c d) as [->|Hne].
      * rewrite IH. split; intros [post Hpost]; exists post; simpl in *; congruence.
      * split; [done | intros [post ?]; simpl in *; congruence].
Qed.

Lemma occurs_at_0 (sep s : string) :
  occurs_at sep s 0 <-> String.prefix sep s = true.
Proof.
  rewrite prefix_app. split.
  - intros (pre & post & -> & Hlen). destruct pre; [by exists post | done].
  - intros [post ->]. by exists EmptyString, post.
Qed.

Lemma occurs_at_S (sep : string) (c : ascii) (s : string) (j : nat) :
  occurs_at sep (String c s) (S j) <-> occurs_at sep s j.
Proof.
  split.
  - intros (pre & post & Heq & Hlen). destruct pre as [|d pre]; [done|].
    simpl in *. exists pre, post. split; congruence.
  - intros (pre & post & -> & Hlen). exists (String c pre), post.
    simpl. by rewrite Hlen.
Qed.

Lemma occurs_at_empty (sep : string) (j : nat) :
  occurs_at sep EmptyString j -> j = 0%nat.
Proof.
  intros (pre & post & Heq & Hlen). destruct pre; [done | discriminate].
Qed.

(** What [indexOf] answers: no occurrence at all, or the position of one
    with none before it. *)
Lemma indexOf_from_spec (sep s : string) (i : Z) :
  0 <= i ->
  (indexOf_from sep s i = -1 /\ absent sep s) \/
  (exists n : nat, indexOf_from sep s i = i + Z.of_nat n /\
     occurs_at sep s n /\ forall j, (j < n)%nat -> ~ occurs_at sep s j).
Proof.
  revert i. induction s as [|c s IH]; intros i Hi; cbn [indexOf_from].
  - destruct (String.prefix sep EmptyString) eqn:Hp.
    + right. exists 0%nat. rewrite Z.add_0_r.
      split; [done|]. split; [by apply occurs_at_0 | lia].
    + left. split; [done|]. intros j Hj.
      pose proof (occurs_at_empty _ _ Hj) as ->.
      apply occurs_at_0 in Hj. congruence.
  - destruct (String.prefix sep (String c s)) eqn:Hp.
    + right. exists 0%nat. rewrite Z.add_0_r.
      split; [done|]. split; [by apply occurs_at_0 | lia].
    + destruct (IH (i + 1)) as [[Hidx Habs] | (n & Hidx & Hocc & Hmin)]; [lia | |].
      * left. split; [done|]. intros [|j] Hj.
        -- apply occurs_at_0 in Hj. congruence.
        -- apply occurs_at_S in Hj. by apply (Habs j).
      * right. exists (S n). split; [lia|]. split; [by apply occurs_at_S|].
        intros [|j] Hlt Hj.
        -- apply occurs_at_0 in Hj. congruence.
        -- apply occurs_at_S in Hj. apply (Hmin j); [lia | done].
Qed.

Lemma indexOf_absent (s sep : string) :
  absent sep s -> indexOf s sep = -1.
Proof.
  intros Habs. unfold indexOf.
  destruct (indexOf_from_spec sep s 0) as [[? _] | (n & _ & Hocc & _)]; [lia | done |].
  by destruct (Habs n).
Qed.

Lemma indexOf_first (s sep : string) (n : nat) :
  occurs_at sep s n -> (forall j, (j < n)%nat -> ~ occurs_at sep s j) ->
  indexOf s sep = Z.of_nat n.
Proof.
  intros Hocc Hmin. unfold indexOf.
  destruct (indexOf_from_spec sep s 0) as [[_ Habs] | (m & Hidx & Hocc' & Hmin')]; [lia | |].
  - by destruct (Habs n).
  - rewrite Hidx. destruct (Nat.lt_trichotomy m n) as [Hlt | [-> | Hgt]].
    + by destruct (Hmin m).
    + lia.
    + by destruct (Hmin' n).
Qed.

Lemma absent_of_indexOf (s sep : string) :
  indexOf s sep = -1 -> absent sep s.
Proof.
  unfold indexOf. intros Hidx.
  destruct (indexOf_from_spec sep s 0) as [[_ ?] | (n & Hn & _)]; [lia | done | lia].
Qed.

Lemma first_of_indexOf (s sep : string) (n : nat) :
  indexOf s sep = Z.of_nat n ->
  occurs_at sep s n /\ forall j, (j < n)%nat -> ~ occurs_at sep s j.
Proof.
  unfold indexOf. intros Hidx.
  destruct (indexOf_from_spec sep s 0) as [[? _] | (m & Hm & Hocc & Hmin)]; [lia | lia |].
  assert (m = n) as -> by lia. done.
Qed.

Lemma substring_0_app (pre rest : string) :
  String.substring 0 (String.length pre) (pre +:+ rest) = pre.
Proof.
  induction pre as [|c pre IH]; simpl.
  - by destruct rest.
  - by rewrite IH.
Qed.

Lemma string_length_app (s1 s2 : string) :
  String.length (s1 +:+ s2) = (String.length s1 + String.length s2)%nat.
Proof. induction s1 as [|c s1 IH]; simpl; [done | by rewrite IH]. Qed.

(** [s.slice(0, n)] of a string that starts with [n] code units [pre]. *)
Lemma slice_0_app (pre rest : string) :
  slice (pre +:+ rest) 0 (Z.of_nat (String.length pre)) = pre.
Proof.
  unfold slice. rewrite string_length_app.
  replace (0 <? 0) with false by done.
  destruct (Z.ltb_spec (Z.of_nat (String.length pre)) 0) as [?|_]; [lia|].
  rewrite Z.min_l by lia. rewrite Z.min_l by lia.
  rewrite Z.sub_0_r, Z.max_l by lia. rewrite Nat2Z.id. simpl.
  apply substring_0_app.
Qed.

Lemma before_first_indexOf (sep s pre : string) :
  before_first sep s pre -> indexOf s sep = Z.of_nat (String.length pre).
Proof.
  intros [[post Hs] Hmin]. apply indexOf_first; [|done].
  by exists pre, post.
Qed.

Lemma before_first_of_indexOf (sep s : string) (n : nat) :
  indexOf s sep = Z.of_nat n -> before_first sep s (slice s 0 (Z.of_nat n)).
Proof.
  intros Hidx. destruct (first_of_indexOf _ _ _ Hidx) as [(pre & post & -> & <-) Hmin].
  rewrite slice_0_app. split; [by exists post | done].
Qed.

(** ** Industry derivation *)

Example pick_restaurants :
  Flat.pickIndustryFromCampaign "restaurants_v1" = "restaurants".
Proof. reflexivity. Qed.

Example pick_two_suffixes :
  Flat.pickIndustryFromCampaign "food_trucks_v2_v3" = "food_trucks".
Proof. reflexivity. Qed.

Example get_food_trucks :
  Sqlite.getIndustryFromCampaign "food_trucks_v2" = "food".
Proof. reflexivity. Qed.

Lemma pickIndustryFromCampaign_before (s pre : string) :
  before_first "_v" s pre -> Flat.pickIndustryFromCampaign s = pre.
Proof.
  intros Hpre. unfold Flat.pickIndustryFromCampaign.
  rewrite (before_first_indexOf _ _ _ Hpre).
  destruct Hpre as [[post ->] _].
  destruct pre as [|c pre]; [done|].
  replace (0 <? _) with true by (symmetry; apply Z.ltb_lt; simpl; lia).
  apply slice_0_app.
Qed.

Lemma pickIndustryFromCampaign_absent (s : string) :
  absent "_v" s -> Flat.pickIndustryFromCampaign s = EmptyString.
Proof.
  intros Habs. unfold Flat.pickIndustryFromCampaign.
  by rewrite (indexOf_absent _ _ Habs).
Qed.

Lemma getIndustryFromCampaign_before (s pre : string) :
  before_first "_" s pre -> Sqlite.getIndustryFromCampaign s = pre.
Proof.
  intros Hpre. unfold Sqlite.getIndustryFromCampaign.
  rewrite (before_first_indexOf _ _ _ Hpre).
  destruct Hpre as [[post ->] _].
  destruct pre as [|c pre]; simpl negb; cbv iota.
  - simpl. done.
  - destruct (Z.eqb_spec (Z.of_nat (String.length (String c pre))) (-1)) as [?|_]; [lia|].
    apply slice_0_app.
Qed.

Lemma getIndustryFromCampaign_absent (s : string) :
  absent "_" s -> Sqlite.getIndustryFromCampaign s = s.
Proof.
  intros Habs. unfold Sqlite.getIndustryFromCampaign.
  rewrite (indexOf_absent _ _ Habs). by destruct s.
Qed.

(** C1 (as amended).  The flat-file variant returns the part of the
    campaign before the first [_v], and the empty string when there is no
    [_v].  The sqlite variant splits on [_] instead: it returns the part
    before the first [_], and the whole campaign when there is no [_]. *)
Theorem industry_derivation (s : string) :
  (forall pre, before_first "_v" s pre -> Flat.pickIndustryFromCampaign s = pre) /\
  (absent "_v" s -> Flat.pickIndustryFromCampaign s = EmptyString) /\
  (forall pre, before_first "_" s pre -> Sqlite.getIndustryFromCampaign s = pre) /\
  (absent "_" s -> Sqlite.getIndustryFromCampaign s = s).
Proof.
  split; [apply pickIndustryFromCampaign_before|].
  split; [apply pickIndustryFromCampaign_absent|].
  split; [apply getIndustryFromCampaign_before | apply getIndustryFromCampaign_absent].
Qed.

Lemma industry_derivation_witness :
  (before_first "_v" "food_trucks_v2" "food_trucks" /\
   Flat.pickIndustryFromCampaign "food_trucks_v2" = "food_trucks") /\
  (absent "_v" "plumbers" /\ Flat.pickIndustryFromCampaign "plumbers" = EmptyString) /\
  (before_first "_" "food_trucks_v2" "food" /\
   Sqlite.getIndustryFromCampaign "food_trucks_v2" = "food") /\
  (absent "_" "plumbers" /\ Sqlite.getIndustryFromCampaign "plumbers" = "plumbers").
Proof.
  assert (H1 : before_first "_v" "food_trucks_v2" "food_trucks")
    by exact (before_first_of_indexOf "_v" "food_trucks_v2" 11 eq_refl).
  assert (H2 : absent "_v" "plumbers")
    by exact (absent_of_indexOf "plumbers" "_v" eq_refl).
  assert (H3 : before_first "_" "food_trucks_v2" "food")
    by exact (before_first_of_indexOf "_" "food_trucks_v2" 4 eq_refl).
  assert (H4 : absent "_" "plumbers")
    by exact (absent_of_indexOf "plumbers" "_" eq_refl).
  split; [split; [exact H1 | exact (proj1 (industry_derivation "food_trucks_v2") _ H1)]|].
  split; [split; [exact H2 | exact (proj1 (proj2 (industry_derivation "plumbers")) H2)]|].
  split; [split; [exact H3 |
    exact (proj1 (proj2 (proj2 (industry_derivation "food_trucks_v2"))) _ H3)]|].
  split; [exact H4 | exact (proj2 (proj2 (proj2 (industry_derivation "plumbers"))) H4)].
Defined.

(** C1 as stated fails in the sqlite variant: a campaign without any
    separator is returned whole, not as the empty string. *)
Lemma industry_derivation_counterexample :
  absent "_" "plumbers" /\ absent "_v" "plumbers" /\
  Sqlite.getIndustryFromCampaign "plumbers" <> EmptyString.
Proof.
  split; [exact (absent_of_indexOf "plumbers" "_" eq_refl)|].
  split; [exact (absent_of_indexOf "plumbers" "_v" eq_refl)|].
  discriminate.
Qed.

(** ** IP hashing *)

Lemma or_else_empty (s : string) : or_else s EmptyString = s.
Proof. by destruct s. Qed.

Lemma substring_0_prefix (n : nat) (s : string) :
  (exists rest, s = String.substring 0 n s +:+ rest) /\
  String.length (String.substring 0 n s) = Nat.min n (String.length s).
Proof.
  revert n. induction s as [|c s IH]; intros [|n]; simpl.
  - split; [by exists EmptyString | done].
  - split; [by exists EmptyString | done].
  - split; [by exists (String c s) | done].
  - destruct (IH n) as [[rest Hrest] Hlen]. split.
    + exists rest. by rewrite <- Hrest.
    + by rewrite Hlen.
Qed.

(** [s.slice(0, n)] is the first [n] code units of [s], or all of [s]. *)
Lemma slice_0_prefix (s : string) (n : nat) :
  (exists rest, s = slice s 0 (Z.of_nat n) +:+ rest) /\
  String.length (slice s 0 (Z.of_nat n)) = Nat.min n (String.length s).
Proof.
  unfold slice.
  replace (0 <? 0) with false by done.
  destruct (Z.ltb_spec (Z.of_nat n) 0) as [?|_]; [lia|].
  rewrite (Z.min_l 0) by lia. rewrite Z.sub_0_r.
  rewrite Z.max_l by lia. change (Z.to_nat 0) with 0%nat.
  destruct (Nat.le_gt_cases n (String.length s)) as [Hle|Hgt].
  - rewrite Z.min_l by lia. rewrite Nat2Z.id. apply substring_0_prefix.
  - rewrite Z.min_r by lia. rewrite Nat2Z.id.
    destruct (substring_0_prefix (String.length s) s) as [Hpre Hlen].
    split; [done | lia].
Qed.

Example ipHash_sample :
  @Flat.ipHash sample_runtime "203.0.113.7" = "fec52565aa0cf18f".
Proof. reflexivity. Qed.

(** C6 (as amended).  In the flat-file variant the stored hash is the
    first 16 characters of the hexadecimal SHA-256 digest of the IP
    string, and the empty string when the digest call throws.  In the
    sqlite variant it is the whole digest, and a throw of the digest call
    is not caught. *)
Theorem ip_hash_by_variant `{Runtime} (ip : string) :
  (forall digest, sha256_hex ip = Ok digest -> String.length digest = 64%nat ->
     String.length (Flat.ipHash ip) = 16%nat /\
     (exists rest, digest = Flat.ipHash ip +:+ rest) /\
     Sqlite.hashIp (Some ip) = Ok digest) /\
  (forall e, sha256_hex ip = Throw e ->
     Flat.ipHash ip = EmptyString /\ Sqlite.hashIp (Some ip) = Throw e).
Proof.
  unfold Flat.ipHash, Sqlite.hashIp. simpl String_or_empty.
  rewrite or_else_empty. split.
  - intros digest -> Hlen.
    destruct (slice_0_prefix digest 16) as [Hpre Hlen16].
    change (Z.of_nat 16) with 16 in Hpre, Hlen16.
    split; [lia|]. by split.
  - by intros e ->.
Qed.

Lemma ip_hash_by_variant_witness :
  (@sha256_hex sample_runtime "203.0.113.7"
     = Ok "fec52565aa0cf18f57d7cf5b3ac728503b8992d2d6f7d46da1d1201090902b02" /\
   String.length (@Flat.ipHash sample_runtime "203.0.113.7") = 16%nat) /\
  (@sha256_hex no_crypto_runtime "203.0.113.7" = Throw CryptoError /\
   @Flat.ipHash no_crypto_runtime "203.0.113.7" = EmptyString).
Proof.
  split.
  - split; [reflexivity|].
    exact (proj1 (proj1 (@ip_hash_by_variant sample_runtime "203.0.113.7")
                    _ eq_refl eq_refl)).
  - split; [reflexivity|].
    exact (proj1 (proj2 (@ip_hash_by_variant no_crypto_runtime "203.0.113.7")
                    _ eq_refl)).
Defined.

(** C6 as stated fails in the sqlite variant: the digest is stored whole,
    64 characters and not a prefix of 16, and a failing digest call raises
    instead of giving the empty string. *)
Lemma ip_hash_by_variant_counterexample :
  @Sqlite.hashIp sample_runtime (Some "203.0.113.7")
    = Ok "fec52565aa0cf18f57d7cf5b3ac728503b8992d2d6f7d46da1d1201090902b02" /\
  @Sqlite.hashIp no_crypto_runtime (Some "203.0.113.7") = Throw CryptoError /\
  @Sqlite.hashIp no_crypto_runtime (Some "203.0.113.7") <> Ok EmptyString.
Proof. split; [reflexivity|]. split; [reflexivity | discriminate]. Qed.

(** ** Recording and responding *)

Section Handlers.
Context `{Runtime}.

(** A failed append leaves the store as it was. *)
Lemma record_fault (st : Flat.Store) (ev : Event) (code : string) :
  Flat.write_fault st = Some code -> Flat.record st ev = st.
Proof.
  intros Hfault. unfold Flat.record, Flat.appendEvent, Flat.appendFile.
  by rewrite Hfault.
Qed.

Lemma record_ok (st : Flat.Store) (ev : Event) :
  Flat.write_fault st = None ->
  Flat.events_file (Flat.record st ev)
  = Some (String_or_empty (Flat.events_file st)
          +:+ JSON_stringify ev +:+ String newline EmptyString).
Proof.
  intros Hfault. unfold Flat.record, Flat.appendEvent, Flat.appendFile.
  by rewrite Hfault.
Qed.

(** The response of the flat-file handlers is computed from the request
    and the environment alone. *)
Lemma click_outcome_any_store (env : Flat.Env) (now : string)
    (st st' : Flat.Store) (req : Request) :
  snd (Flat.click env now st req) = snd (Flat.click env now st' req).
Proof.
  unfold Flat.click.
  destruct (negb (truthy_string (Flat.LANDING_BASE env))); [done|].
  by destruct (URL_new (Flat.LANDING_BASE env)).
Qed.

Lemma click_store (env : Flat.Env) (now : string) (st : Flat.Store) (req : Request) :
  fst (Flat.click env now st req)
  = Flat.record st (Flat.event_of "click" (params_lead_id req) now req).
Proof.
  unfold Flat.click.
  destruct (negb (truthy_string (Flat.LANDING_BASE env))); [done|].
  by destruct (URL_new (Flat.LANDING_BASE env)).
Qed.

(** C2 (as amended).  In the flat-file variant a failed append is caught:
    the store is left as it was and the click, open and conversion
    handlers end as they do on any other store, one with a successful
    write included.  In the sqlite variant, which has the click and open
    handlers only, a failed insert is not caught: the handler rejects with
    the database error and sends no response. *)
Theorem recording_failure_by_variant
    (fenv : Flat.Env) (senv : Sqlite.Env) (now : string) (req : Request) :
  (forall st code, Flat.write_fault st = Some code ->
     forall st_ok,
       Flat.click fenv now st req = (st, snd (Flat.click fenv now st_ok req)) /\
       Flat.open now st req = (st, snd (Flat.open now st_ok req)) /\
       Flat.conv now st req = (st, snd (Flat.conv now st_ok req))) /\
  (forall db message digest, Sqlite.db_fault db = Some message ->
     Sqlite.hashIp (req_ip req) = Ok digest ->
     Sqlite.click senv now db req = (db, Rejected (DbError message)) /\
     Sqlite.open now db req = (db, Rejected (DbError message))).
Proof.
  split.
  - intros st code Hfault st_ok. split; [|split].
    + rewrite (surjective_pairing (Flat.click fenv now st req)).
      rewrite click_store, (record_fault _ _ _ Hfault).
      by rewrite (click_outcome_any_store fenv now st st_ok).
    + unfold Flat.open. by rewrite (record_fault _ _ _ Hfault).
    + unfold Flat.conv. by rewrite (record_fault _ _ _ Hfault).
  - intros db message digest Hfault Hhash.
    unfold Sqlite.click, Sqlite.open, Sqlite.run_insert.
    by rewrite Hhash, Hfault.
Qed.

(** C4 (as amended).  Without a landing base the click handler of the
    flat-file variant answers 500 with the body "LANDING_BASE not
    configured"; the click handler of the sqlite variant, once the click
    is inserted, redirects with 302 to [/stats]. *)
Theorem missing_landing_base_by_variant
    (fenv : Flat.Env) (senv : Sqlite.Env) (now : string)
    (st : Flat.Store) (db : Sqlite.Db) (req : Request) :
  (Flat.LANDING_BASE fenv = EmptyString ->
     snd (Flat.click fenv now st req)
     = Sent {| status := 500; location := None; content_type := None;
               cache_control := None;
               body := Text "LANDING_BASE not configured" |}) /\
  (Sqlite.LANDING_BASE senv = EmptyString ->
     forall digest, Sqlite.hashIp (req_ip req) = Ok digest ->
     Sqlite.db_fault db = None ->
     snd (Sqlite.click senv now db req) = Sent (redirect 302 "/stats")).
Proof.
  split.
  - intros Hbase. unfold Flat.click. by rewrite Hbase.
  - intros Hbase digest Hhash Hfault.
    unfold Sqlite.click, Sqlite.run_insert. by rewrite Hhash, Hfault, Hbase.
Qed.

(** The line of an event starts with its [type] member. *)
Lemma JSON_stringify_type (ev : Event) :
  exists rest,
    JSON_stringify ev
    = "{" +:+ JSON_stringify_string "type" +:+ ":"
      +:+ JSON_stringify_string (type ev) +:+ "," +:+ rest.
Proof.
  unfold JSON_stringify. cbn [join]. rewrite !string_app_assoc.
  eexists. reflexivity.
Qed.


(** *** The redirect of a click *)

Lemma searchParams_get_filter (ps : list (string * string)) (name k : string) :
  k <> name ->
  searchParams_get (List.filter (fun p => negb (String.eqb (fst p) name)) ps) k
  = searchParams_get ps k.
Proof.
  intros Hne. induction ps as [|[k' v'] ps IH]; [done|]. simpl.
  destruct (String.eqb_spec k' name) as [->|Hk']; simpl.
  - destruct (String.eqb_spec name k); [congruence | done].
  - by rewrite IH.
Qed.

Lemma searchParams_get_set (ps : list (string * string)) (name value : string) :
  searchParams_get (searchParams_set ps name value) name = Some value.
Proof.
  induction ps as [|[k v] ps IH]; simpl.
  - by rewrite String.eqb_refl.
  - destruct (String.eqb_spec k name) as [->|Hne]; simpl.
    + by rewrite String.eqb_refl.
    + by destruct (String.eqb_spec k name).
Qed.

Lemma searchParams_get_set_ne (ps : list (string * string)) (name value k : string) :
  k <> name ->
  searchParams_get (searchParams_set ps name value) k = searchParams_get ps k.
Proof.
  intros Hne. induction ps as [|[k' v'] ps IH]; simpl.
  - destruct (String.eqb_spec name k); [congruence | done].
  - destruct (String.eqb_spec k' name) as [->|Hk']; simpl.
    + destruct (String.eqb_spec name k); [congruence|].
      by apply searchParams_get_filter.
    + by rewrite IH.
Qed.

Lemma searchParams_get_In (ps : list (string * string)) (k v : string) :
  searchParams_get ps k = Some v -> In (k, v) ps.
Proof.
  induction ps as [|[k' v'] ps IH]; [done|]. simpl.
  destruct (String.eqb_spec k' k) as [->|Hne].
  - intros [= ->]. by left.
  - intros Hget. right. by apply IH.
Qed.

Lemma includes_app (pre needle post : string) :
  includes (pre +:+ needle +:+ post) needle = true.
Proof.
  unfold includes.
  destruct (Z.eqb_spec (indexOf (pre +:+ needle +:+ post) needle) (-1)) as [Hidx|]; [|done].
  apply absent_of_indexOf in Hidx.
  destruct (Hidx (String.length pre)). by exists pre, post.
Qed.

Lemma join_In (sep x : string) (l : list string) :
  In x l -> exists pre post, join sep l = pre +:+ x +:+ post.
Proof.
  induction l as [|y l IH]; [done|]. intros [->|Hin].
  - destruct l as [|z l].
    + exists EmptyString, EmptyString. simpl. by rewrite string_app_empty_r.
    + exists EmptyString, (sep +:+ join sep (z :: l)). done.
  - destruct (IH Hin) as (pre & post & Hjoin). destruct l as [|z l]; [done|].
    exists (y +:+ sep +:+ pre), post.
    change (join sep (y :: z :: l)) with (y +:+ sep +:+ join sep (z :: l)).
    by rewrite Hjoin, !string_app_assoc.
Qed.

(** A pair of [searchParams] is in the text of the URL. *)
Lemma URL_toString_includes (u : URL) (p : string * string) :
  In p (searchParams u) -> includes (URL_toString u) (serialize_param p) = true.
Proof.
  intros Hin. unfold URL_toString.
  destruct (searchParams u) as [|q ps] eqn:Hps; [done|].
  destruct (join_In "&" (serialize_param p) (map serialize_param (q :: ps)))
    as (pre & post & ->); [by apply in_map|].
  replace (url_base u +:+ ("?" +:+ pre +:+ serialize_param p +:+ post) +:+ url_hash u)
    with ((url_base u +:+ "?" +:+ pre) +:+ serialize_param p +:+ (post +:+ url_hash u))
    by (by rewrite !string_app_assoc).
  apply includes_app.
Qed.

(** *** What Express makes of the URL *)

Ltac by_code_unit c :=
  destruct c as [[] [] [] [] [] [] [] []]; vm_compute; intros;
  first [reflexivity | discriminate].

Lemma hex_digit_plain (c : ascii) : is_hex_digit c = true -> url_plain c = true.
Proof. by_code_unit c. Qed.

Lemma form_kept_plain (c : ascii) :
  is_alphanumeric c || one_of "*-._" c = true -> url_plain c = true.
Proof. by_code_unit c. Qed.

Lemma component_kept_plain (c : ascii) :
  is_alphanumeric c || one_of "-_.!~*'()" c = true -> url_plain c = true.
Proof. by_code_unit c. Qed.

Lemma encodeUrl_from_plain (c : ascii) (t : string) :
  url_plain c = true ->
  encodeUrl_from 0 (String c t) = String c (encodeUrl_from 0 t).
Proof.
  intros [Hchar Hpercent%negb_true_iff]%andb_true_iff.
  cbn [encodeUrl_from]. by rewrite Hpercent, Hchar.
Qed.

Lemma encodeUrl_from_triple (h1 h2 : ascii) (t : string) :
  is_hex_digit h1 = true -> is_hex_digit h2 = true ->
  encodeUrl_from 0 (String "%" (String h1 (String h2 t)))
  = String "%" (String h1 (String h2 (encodeUrl_from 0 t))).
Proof.
  intros H1 H2.
  rewrite <- (encodeUrl_from_plain h2 t) by by apply hex_digit_plain.
  rewrite <- (encodeUrl_from_plain h1) by by apply hex_digit_plain.
  change (encodeUrl_from 0 (String "%" (String h1 (String h2 t))))
    with (if negb (is_hex_digit h1)
          then "%25" +:+ encodeUrl_from 1 (String h1 (String h2 t))
          else if negb (is_hex_digit h2)
               then "%25" +:+ encodeUrl_from 2 (String h1 (String h2 t))
               else String "%" (encodeUrl_from 0 (String h1 (String h2 t)))).
  by rewrite H1, H2.
Qed.

(** [encodeUrl] passes over a text of URL code units and whole escapes. *)
Lemma encodeUrl_from_escaped (q rest : string) :
  escaped q -> encodeUrl_from 0 (q +:+ rest) = q +:+ encodeUrl_from 0 rest.
Proof.
  induction 1 as [|c s Hc _ IH|h1 h2 s H1 H2 _ IH]; [done| |].
  - change (String c s +:+ rest) with (String c (s +:+ rest)).
    rewrite encodeUrl_from_plain by done. by rewrite IH.
  - change (String "%" (String h1 (String h2 s)) +:+ rest)
      with (String "%" (String h1 (String h2 (s +:+ rest)))).
    rewrite encodeUrl_from_triple by done. by rewrite IH.
Qed.

Lemma escaped_app (s1 s2 : string) : escaped s1 -> escaped s2 -> escaped (s1 +:+ s2).
Proof.
  induction 1; intros Hs2; simpl; [done | by apply escaped_char; auto
                                  | by apply escaped_triple; auto].
Qed.

Lemma escaped_plain (s : string) : all_chars url_plain s = true -> escaped s.
Proof.
  induction s as [|c s IH]; simpl; [constructor|].
  intros [Hc Hs]%andb_true_iff. by apply escaped_char; auto.
Qed.

Lemma escaped_percent_encode (c : ascii) (s : string) :
  escaped s -> escaped (percent_encode c +:+ s).
Proof.
  intros Hs. destruct c as [[] [] [] [] [] [] [] []]; cbv;
    repeat (apply escaped_triple; [reflexivity | reflexivity |]); exact Hs.
Qed.

Lemma escaped_form_urlencode (s : string) : escaped (form_urlencode s).
Proof.
  unfold form_urlencode. induction s as [|c s IH]; cbn [map_chars]; [constructor|].
  destruct (is_alphanumeric c || one_of "*-._" c) eqn:Hkept.
  - apply escaped_char; [by apply form_kept_plain | done].
  - destruct (Ascii.eqb c " ").
    + by apply escaped_char.
    + by apply escaped_percent_encode.
Qed.

Lemma escaped_encodeURIComponent (s : string) : escaped (encodeURIComponent s).
Proof.
  unfold encodeURIComponent. induction s as [|c s IH]; cbn [map_chars]; [constructor|].
  destruct (is_alphanumeric c || one_of "-_.!~*'()" c) eqn:Hkept.
  - apply escaped_char; [by apply component_kept_plain | done].
  - by apply escaped_percent_encode.
Qed.

Lemma escaped_join (sep : string) (pieces : list string) :
  escaped sep -> Forall escaped pieces -> escaped (join sep pieces).
Proof.
  intros Hsep. induction 1 as [|piece pieces Hpiece Hpieces IH]; [constructor|].
  destruct pieces as [|piece' pieces]; [done|].
  change (join sep (piece :: piece' :: pieces))
    with (piece +:+ sep +:+ join sep (piece' :: pieces)).
  by repeat apply escaped_app.
Qed.

Lemma escaped_query (ps : list (string * string)) :
  escaped (join "&" (map serialize_param ps)).
Proof.
  apply escaped_join; [by apply escaped_plain|].
  apply Forall_forall. intros piece Hpiece%list_elem_of_In.
  apply in_map_iff in Hpiece as (pair & <- & _). unfold serialize_param.
  repeat apply escaped_app; try apply escaped_form_urlencode.
  by apply escaped_plain.
Qed.

(** What [encodeUrl] makes of a text up to a [?] does not depend on what
    follows the [?]. *)
Lemma encodeUrl_from_base (base rest : string) (pending : nat) :
  (pending <= S (String.length base))%nat ->
  encodeUrl_from pending (base +:+ String "?" rest)
  = encodeUrl_from pending (base +:+ "?") +:+ encodeUrl_from 0 rest.
Proof.
  revert pending. induction base as [|c base IH]; intros pending Hpending.
  - destruct pending as [|[|pending]]; [done | done | simpl in Hpending; lia].
  - change (String c base +:+ ?t) with (String c (base +:+ t)).
    destruct pending as [|pending].
    + pose proof (IH 0%nat ltac:(lia)) as IH0.
      pose proof (IH 1%nat ltac:(lia)) as IH1.
      cbn [encodeUrl_from]. destruct (Ascii.eqb c "%").
      * destruct base as [|x base]; [reflexivity|].
        pose proof (IH 2%nat ltac:(simpl; lia)) as IH2.
        cbn [String.append] in IH0, IH1, IH2 |- *.
        destruct (is_hex_digit x); cbn [negb].
        -- destruct base as [|y base]; cbn [String.append] in IH0, IH1, IH2 |- *.
           ++ change (negb (is_hex_digit "?")) with true. cbn iota.
              by rewrite IH2, ?string_app_assoc.
           ++ destruct (is_hex_digit y); cbn [negb].
              ** by rewrite IH0.
              ** by rewrite IH2, ?string_app_assoc.
        -- by rewrite IH1, ?string_app_assoc.
      * destruct (url_char c).
        -- by rewrite IH0.
        -- by rewrite IH0, ?string_app_assoc.
    + cbn [encodeUrl_from]. rewrite IH by (simpl in Hpending; lia).
      by rewrite string_app_assoc.
Qed.

(** [encodeUrl] changes nothing in a text of plain URL code units. *)
Lemma encodeUrl_plain (s : string) : all_chars url_plain s = true -> encodeUrl s = s.
Proof.
  intros Hs. unfold encodeUrl. rewrite <- (string_app_empty_r s) at 1.
  rewrite encodeUrl_from_escaped by by apply escaped_plain.
  apply string_app_empty_r.
Qed.

(** The Location of a URL with a query: the text before the query and the
    fragment are encoded, the query is left as the URL wrote it. *)
Lemma encodeUrl_URL_toString (u : URL) :
  searchParams u <> [] ->
  encodeUrl (URL_toString u)
  = encodeUrl (url_base u +:+ "?")
    +:+ join "&" (map serialize_param (searchParams u))
    +:+ encodeUrl (url_hash u).
Proof.
  intros Hps. unfold URL_toString, encodeUrl.
  destruct (searchParams u) as [|p ps] eqn:Hparams; [done|].
  set (query := join "&" (map serialize_param (p :: ps))).
  change (url_base u +:+ ("?" +:+ query) +:+ url_hash u)
    with (url_base u +:+ String "?" (query +:+ url_hash u)).
  rewrite encodeUrl_from_base by lia.
  by rewrite (encodeUrl_from_escaped query) by apply escaped_query.
Qed.

Lemma searchParams_set_nonempty (ps : list (string * string)) (name value : string) :
  searchParams_set ps name value <> [].
Proof.
  destruct ps as [|[k v] ps]; simpl; [done|]. by destruct (String.eqb k name).
Qed.

Lemma named_filter_ne (ps : list (string * string)) (name k : string) :
  k <> name ->
  named k (List.filter (fun p => negb (String.eqb (fst p) name)) ps) = named k ps.
Proof.
  intros Hne. unfold named. induction ps as [|[k' v'] ps IH]; [done|]. simpl.
  destruct (String.eqb_spec k' name) as [->|Hk']; simpl.
  - destruct (String.eqb_spec name k); [congruence | done].
  - by rewrite IH.
Qed.

Lemma named_filter_eq (ps : list (string * string)) (name : string) :
  named name (List.filter (fun p => negb (String.eqb (fst p) name)) ps) = [].
Proof.
  unfold named. induction ps as [|[k' v'] ps IH]; [done|]. simpl.
  destruct (String.eqb_spec k' name) as [->|Hk']; simpl; [done|].
  by destruct (String.eqb_spec k' name).
Qed.

(** [set] leaves the pairs of every other name as they are. *)
Lemma named_set_ne (ps : list (string * string)) (name value k : string) :
  k <> name -> named k (searchParams_set ps name value) = named k ps.
Proof.
  intros Hne. induction ps as [|[k' v'] ps IH]; simpl.
  - unfold named. simpl. by destruct (String.eqb_spec name k); [congruence|].
  - destruct (String.eqb_spec k' name) as [->|Hk'].
    + unfold named at 1 2. simpl.
      destruct (String.eqb_spec name k); [congruence|].
      by apply named_filter_ne.
    + unfold named at 1 2. simpl. fold (named k (searchParams_set ps name value)).
      fold (named k ps). by rewrite IH.
Qed.

(** After [set] there is one pair of that name. *)
Lemma named_set_eq (ps : list (string * string)) (name value : string) :
  named name (searchParams_set ps name value) = [(name, value)].
Proof.
  induction ps as [|[k' v'] ps IH]; simpl.
  - unfold named. simpl. by rewrite String.eqb_refl.
  - destruct (String.eqb_spec k' name) as [->|Hk'].
    + unfold named at 1. simpl. rewrite String.eqb_refl.
      fold (named name (List.filter (fun p => negb (String.eqb (fst p) name)) ps)).
      by rewrite named_filter_eq.
    + unfold named at 1. simpl. destruct (String.eqb_spec k' name); [done|].
      by fold (named name (searchParams_set ps name value)).
Qed.

Lemma encodeUrl_plain_base (base : string) :
  all_chars url_plain base = true -> encodeUrl (base +:+ "?") = base +:+ "?".
Proof.
  intros Hplain. apply encodeUrl_plain.
  induction base as [|c base IH]; simpl in *; [done|].
  apply andb_true_iff in Hplain as [-> Hbase]. by apply IH.
Qed.

(** What the click handler of the flat-file variant sends once the landing
    base has parsed: the parameters are those of the base after the
    handler's [set] calls. *)
Lemma flat_click_sends
    (env : Flat.Env) (now : string) (st : Flat.Store) (req : Request) (base : URL) :
  Flat.LANDING_BASE env <> EmptyString ->
  URL_new (Flat.LANDING_BASE env) = Ok base ->
  let lead := params_lead_id req in
  let camp := String_or_empty (query_c req) in
  let ps := searchParams_set (searchParams base) "lid" lead in
  let ps := if truthy_string camp then searchParams_set ps "utm_campaign" camp else ps in
  let ps := searchParams_set
              (searchParams_set (searchParams_set ps "utm_source" "coldemail")
                 "utm_medium" "email") "c" camp in
  snd (Flat.click env now st req)
  = Sent {| status := 302;
            location :=
              Some (encodeUrl (url_base base +:+ "?")
                    +:+ join "&" (map serialize_param ps)
                    +:+ encodeUrl (url_hash base));
            content_type := None; cache_control := None;
            body := RedirectNotice |}.
Proof.
  intros Hbase Hurl. unfold Flat.click.
  destruct (Flat.LANDING_BASE env) as [|c0 rest] eqn:Hlb; [done|].
  cbn [truthy_string negb]. rewrite Hurl. cbn [snd]. unfold redirect.
  rewrite encodeUrl_URL_toString by apply searchParams_set_nonempty.
  by destruct (String_or_empty (query_c req)).
Qed.

(** What the click handler of the sqlite variant sends once the click is
    inserted. *)
Lemma sqlite_click_sends
    (env : Sqlite.Env) (now : string) (db : Sqlite.Db) (req : Request)
    (digest : string) :
  Sqlite.LANDING_BASE env <> EmptyString ->
  Sqlite.hashIp (req_ip req) = Ok digest ->
  Sqlite.db_fault db = None ->
  snd (Sqlite.click env now db req)
  = Sent {| status := 302;
            location :=
              Some (encodeUrl (Sqlite.LANDING_BASE env +:+ "?")
                    +:+ "lid=" +:+ encodeURIComponent (params_lead_id req)
                    +:+ "&utm_campaign="
                    +:+ encodeURIComponent (String_or_empty (query_c req)));
            content_type := None; cache_control := None;
            body := RedirectNotice |}.
Proof.
  intros Hbase Hhash Hfault.
  unfold Sqlite.click, Sqlite.run_insert. rewrite Hhash, Hfault.
  destruct (Sqlite.LANDING_BASE env) as [|c0 rest] eqn:Hlb; [done|].
  cbn [or_else truthy_string snd]. unfold redirect. do 3 f_equal. unfold encodeUrl.
  set (query := "lid=" +:+ encodeURIComponent (params_lead_id req)
                +:+ "&utm_campaign="
                +:+ encodeURIComponent (String_or_empty (query_c req))).
  change (String c0 rest +:+ "?lid=" +:+ _) with (String c0 rest +:+ String "?" query).
  rewrite encodeUrl_from_base by lia. f_equal.
  rewrite <- (string_app_empty_r query) at 1.
  rewrite encodeUrl_from_escaped; [apply string_app_empty_r|].
  repeat apply escaped_app; try apply escaped_encodeURIComponent;
    by apply escaped_plain.
Qed.

(** C3 (as amended).  With a landing base configured, the click handler
    of the flat-file variant, when the base parses as a URL, answers 302
    with a Location made of the base's text before the query and [?], as
    Express encodes them, the query, and the base's fragment, as Express
    encodes it.  In the query [lid] is the lead, [utm_source] is
    coldemail, [utm_medium] is email and [c] is the campaign;
    [utm_campaign] is there once, with the campaign, when the campaign is
    not empty, and when it is empty no [utm_campaign] is set: the URL has
    those of the base and no other.  Each of these pairs is in the text of
    the Location.  The click handler of the sqlite variant, once the click
    is inserted, answers 302 with the landing base and [?], as Express
    encodes them, followed by [lid=] and the lead and [&utm_campaign=] and
    the campaign, both URI encoded, and no other parameter.  Express
    changes nothing in a landing base of plain URL code units. *)
Theorem click_redirect_by_variant
    (fenv : Flat.Env) (senv : Sqlite.Env) (now : string)
    (st : Flat.Store) (db : Sqlite.Db) (req : Request) :
  let lead := params_lead_id req in
  let camp := String_or_empty (query_c req) in
  (forall base, Flat.LANDING_BASE fenv <> EmptyString ->
     URL_new (Flat.LANDING_BASE fenv) = Ok base ->
     exists url text,
       snd (Flat.click fenv now st req)
       = Sent {| status := 302; location := Some text; content_type := None;
                 cache_control := None; body := RedirectNotice |} /\
       text = encodeUrl (url_base base +:+ "?")
              +:+ join "&" (map serialize_param (searchParams url))
              +:+ encodeUrl (url_hash base) /\
       searchParams_get (searchParams url) "lid" = Some lead /\
       searchParams_get (searchParams url) "utm_source" = Some "coldemail" /\
       searchParams_get (searchParams url) "utm_medium" = Some "email" /\
       searchParams_get (searchParams url) "c" = Some camp /\
       (camp <> EmptyString ->
          searchParams_get (searchParams url) "utm_campaign" = Some camp /\
          named "utm_campaign" (searchParams url) = [("utm_campaign", camp)]) /\
       (camp = EmptyString ->
          searchParams_get (searchParams url) "utm_campaign"
          = searchParams_get (searchParams base) "utm_campaign" /\
          named "utm_campaign" (searchParams url)
          = named "utm_campaign" (searchParams base)) /\
       forall k v, searchParams_get (searchParams url) k = Some v ->
         includes text (serialize_param (k, v)) = true) /\
  (Sqlite.LANDING_BASE senv <> EmptyString ->
     forall digest, Sqlite.hashIp (req_ip req) = Ok digest ->
     Sqlite.db_fault db = None ->
     snd (Sqlite.click senv now db req)
     = Sent {| status := 302;
               location :=
                 Some (encodeUrl (Sqlite.LANDING_BASE senv +:+ "?")
                       +:+ "lid=" +:+ encodeURIComponent lead
                       +:+ "&utm_campaign=" +:+ encodeURIComponent camp);
               content_type := None; cache_control := None;
               body := RedirectNotice |}) /\
  (forall base, all_chars url_plain base = true ->
     encodeUrl (base +:+ "?") = base +:+ "?").
Proof.
  intros lead camp. subst lead camp. split; [|split].
  - intros base Hbase Hurl.
    pose proof (flat_click_sends fenv now st req base Hbase Hurl) as Hsent.
    cbv zeta in Hsent.
    eexists {| url_base := url_base base; searchParams := _;
               url_hash := url_hash base |}, _.
    split; [exact Hsent|]. cbn [searchParams]. split; [reflexivity|].
    split; [|split; [|split; [|split; [|split; [|split]]]]].
    + rewrite !searchParams_get_set_ne by done.
      destruct (truthy_string _);
        [rewrite searchParams_get_set_ne by done|]; apply searchParams_get_set.
    + rewrite !searchParams_get_set_ne by done. apply searchParams_get_set.
    + rewrite !searchParams_get_set_ne by done. apply searchParams_get_set.
    + apply searchParams_get_set.
    + intros Hcamp.
      destruct (String_or_empty (query_c req)) as [|c1 camp]; [done|].
      cbn [truthy_string]. split.
      * rewrite !searchParams_get_set_ne by done. apply searchParams_get_set.
      * rewrite !named_set_ne by done. apply named_set_eq.
    + intros ->. cbn [truthy_string]. split.
      * by rewrite !searchParams_get_set_ne.
      * by rewrite !named_set_ne.
    + intros k v Hget%searchParams_get_In.
      destruct (join_In "&" (serialize_param (k, v)) _
                  (in_map serialize_param _ _ Hget)) as (pre & post & ->).
      rewrite !string_app_assoc, <- (string_app_assoc _ pre).
      apply includes_app.
  - intros Hbase digest Hhash Hfault. by apply (sqlite_click_sends _ _ _ _ digest).
  - apply encodeUrl_plain_base.
Qed.

End Handlers.

(** *** The handlers on the sample request *)

Example click_sample :
  snd (@Flat.click sample_runtime landing_env sample_now empty_store sample_request)
  = Sent {| status := 302;
            location :=
              Some "https://example.com/land?lid=lead&utm_campaign=camp&utm_source=coldemail&utm_medium=email&c=camp";
            content_type := None; cache_control := None;
            body := RedirectNotice |}.
Proof. reflexivity. Qed.

Lemma recording_failure_by_variant_witness :
  (Flat.write_fault full_disk = Some "ENOSPC" /\
   @Flat.conv sample_runtime sample_now full_disk sample_request
   = (full_disk,
      Sent {| status := 204; location := None; content_type := None;
              cache_control := None; body := NoBody |})) /\
  (Sqlite.db_fault locked_db = Some "SQLITE_BUSY: database is locked" /\
   @Sqlite.hashIp sample_runtime (req_ip sample_request) = Ok sample_digest /\
   @Sqlite.open sample_runtime sample_now locked_db sample_request
   = (locked_db, Rejected (DbError "SQLITE_BUSY: database is locked"))).
Proof.
  pose proof (@recording_failure_by_variant sample_runtime landing_env
                landing_env_sqlite sample_now sample_request) as [Hflat Hsqlite].
  split.
  - split; [reflexivity|].
    exact (proj2 (proj2 (Hflat full_disk "ENOSPC" eq_refl empty_store))).
  - split; [reflexivity|]. split; [reflexivity|].
    exact (proj2 (Hsqlite locked_db _ sample_digest eq_refl eq_refl)).
Defined.

(** C2 as stated fails in the sqlite variant: with the database locked the
    click handler rejects, where it redirects when the insert succeeds. *)
Lemma recording_failure_by_variant_counterexample :
  snd (@Sqlite.click sample_runtime landing_env_sqlite sample_now locked_db sample_request)
  = Rejected (DbError "SQLITE_BUSY: database is locked") /\
  snd (@Sqlite.click sample_runtime landing_env_sqlite sample_now empty_db sample_request)
  = Sent (redirect 302 "https://example.com/land?lid=lead&utm_campaign=camp").
Proof. split; reflexivity. Qed.

Lemma click_redirect_by_variant_witness :
  (Flat.LANDING_BASE landing_env <> EmptyString /\
   (exists base, @URL_new sample_runtime (Flat.LANDING_BASE landing_env) = Ok base) /\
   (exists url text,
      snd (@Flat.click sample_runtime landing_env sample_now empty_store sample_request)
      = Sent {| status := 302; location := Some text; content_type := None;
                cache_control := None; body := RedirectNotice |} /\
      text = "https://example.com/land?lid=lead&utm_campaign=camp&utm_source=coldemail&utm_medium=email&c=camp" /\
      named "utm_campaign" (searchParams url) = [("utm_campaign", "camp")] /\
      includes text "utm_campaign=camp" = true) /\
   (exists url text,
      snd (@Flat.click sample_runtime landing_env sample_now empty_store
             no_campaign_request)
      = Sent {| status := 302; location := Some text; content_type := None;
                cache_control := None; body := RedirectNotice |} /\
      text = "https://example.com/land?lid=lead&utm_source=coldemail&utm_medium=email&c=" /\
      named "utm_campaign" (searchParams url) = [])) /\
  (Sqlite.LANDING_BASE landing_env_sqlite <> EmptyString /\
   @Sqlite.hashIp sample_runtime (req_ip sample_request) = Ok sample_digest /\
   Sqlite.db_fault empty_db = None /\
   snd (@Sqlite.click sample_runtime landing_env_sqlite sample_now empty_db sample_request)
   = Sent {| status := 302;
             location := Some "https://example.com/land?lid=lead&utm_campaign=camp";
             content_type := None; cache_control := None;
             body := RedirectNotice |}).
Proof.
  pose proof (@click_redirect_by_variant sample_runtime landing_env
                landing_env_sqlite sample_now empty_store empty_db sample_request)
    as (Hflat & Hsqlite & _).
  pose proof (@click_redirect_by_variant sample_runtime landing_env
                landing_env_sqlite sample_now empty_store empty_db
                no_campaign_request) as (Hnone & _).
  split.
  - split; [discriminate|]. split; [eexists; reflexivity|]. split.
    + destruct (Hflat _ ltac:(discriminate) eq_refl)
        as (url & text & Hsent & _ & _ & _ & _ & _ & Hcamp & _ & Hin).
      destruct (Hcamp ltac:(discriminate)) as [Hget Hnamed].
      exists url, text. split; [exact Hsent|]. split.
      * assert (Hrun : snd (@Flat.click sample_runtime landing_env sample_now
                              empty_store sample_request)
                       = Sent {| status := 302;
                                 location := Some "https://example.com/land?lid=lead&utm_campaign=camp&utm_source=coldemail&utm_medium=email&c=camp";
                                 content_type := None; cache_control := None;
                                 body := RedirectNotice |}) by reflexivity.
        rewrite Hsent in Hrun. by injection Hrun.
      * split; [exact Hnamed | exact (Hin _ _ Hget)].
    + destruct (Hnone _ ltac:(discriminate) eq_refl)
        as (url & text & Hsent & _ & _ & _ & _ & _ & _ & Hempty & _).
      destruct (Hempty eq_refl) as [_ Hnamed].
      exists url, text. split; [exact Hsent|]. split; [|exact Hnamed].
      assert (Hrun : snd (@Flat.click sample_runtime landing_env sample_now
                            empty_store no_campaign_request)
                     = Sent {| status := 302;
                               location := Some "https://example.com/land?lid=lead&utm_source=coldemail&utm_medium=email&c=";
                               content_type := None; cache_control := None;
                               body := RedirectNotice |}) by reflexivity.
      rewrite Hsent in Hrun. by injection Hrun.
  - split; [discriminate|]. split; [reflexivity|]. split; [reflexivity|].
    exact (Hsqlite ltac:(discriminate) sample_digest eq_refl eq_refl).
Defined.

(** C3 as stated fails.  The redirect of the sqlite variant carries [lid]
    and [utm_campaign] only; the redirect of the flat-file variant has no
    [utm_campaign] when the request names no campaign. *)
Lemma click_redirect_by_variant_counterexample :
  (snd (@Sqlite.click sample_runtime landing_env_sqlite sample_now empty_db sample_request)
   = Sent {| status := 302;
             location := Some "https://example.com/land?lid=lead&utm_campaign=camp";
             content_type := None; cache_control := None;
             body := RedirectNotice |} /\
   includes "https://example.com/land?lid=lead&utm_campaign=camp"
            "utm_source=coldemail" = false /\
   includes "https://example.com/land?lid=lead&utm_campaign=camp"
            "utm_medium=email" = false /\
   includes "https://example.com/land?lid=lead&utm_campaign=camp" "c=camp" = false) /\
  (snd (@Flat.click sample_runtime landing_env sample_now empty_store no_campaign_request)
   = Sent {| status := 302;
             location :=
               Some "https://example.com/land?lid=lead&utm_source=coldemail&utm_medium=email&c=";
             content_type := None; cache_control := None;
             body := RedirectNotice |} /\
   includes "https://example.com/land?lid=lead&utm_source=coldemail&utm_medium=email&c="
            "utm_campaign=" = false).
Proof. repeat split; reflexivity. Qed.

Lemma missing_landing_base_by_variant_witness :
  (Flat.LANDING_BASE {| Flat.env_LANDING_BASE := Some "  " |} = EmptyString /\
   snd (@Flat.click sample_runtime {| Flat.env_LANDING_BASE := Some "  " |}
          sample_now empty_store sample_request)
   = Sent {| status := 500; location := None; content_type := None;
             cache_control := None; body := Text "LANDING_BASE not configured" |}) /\
  (Sqlite.LANDING_BASE {| Sqlite.env_LANDING_BASE := None |} = EmptyString /\
   @Sqlite.hashIp sample_runtime (req_ip sample_request) = Ok sample_digest /\
   Sqlite.db_fault empty_db = None /\
   snd (@Sqlite.click sample_runtime {| Sqlite.env_LANDING_BASE := None |}
          sample_now empty_db sample_request)
   = Sent (redirect 302 "/stats")).
Proof.
  split.
  - split; [reflexivity|].
    exact (proj1 (@missing_landing_base_by_variant sample_runtime
                    {| Flat.env_LANDING_BASE := Some "  " |}
                    {| Sqlite.env_LANDING_BASE := None |}
                    sample_now empty_store empty_db sample_request) eq_refl).
  - split; [reflexivity|]. split; [reflexivity|]. split; [reflexivity|].
    exact (proj2 (@missing_landing_base_by_variant sample_runtime
                    {| Flat.env_LANDING_BASE := Some "  " |}
                    {| Sqlite.env_LANDING_BASE := None |}
                    sample_now empty_store empty_db sample_request)
             eq_refl sample_digest eq_refl eq_refl).
Defined.

(** C4 as stated fails in the sqlite variant: without a landing base the
    click handler answers 302, not 500. *)
Lemma missing_landing_base_by_variant_counterexample :
  exists r,
    snd (@Sqlite.click sample_runtime {| Sqlite.env_LANDING_BASE := None |}
           sample_now empty_db sample_request) = Sent r /\
    status r = 302 /\ location r = Some "/stats" /\ status r <> 500.
Proof. eexists. split; [reflexivity|]. repeat split. discriminate. Qed.



(** ** Reading the events back *)

Lemma split_no_sep (sep : ascii) (l : string) :
  free_of sep l = true -> split sep l = [l].
Proof.
  induction l as [|c l IH]; simpl; [done|].
  destruct (Ascii.eqb c sep); [done|]. simpl. intros Hfree. by rewrite IH.
Qed.

Lemma split_app_sep (sep : ascii) (l rest : string) :
  free_of sep l = true ->
  split sep (l +:+ String sep rest) = l :: split sep rest.
Proof.
  induction l as [|c l IH]; simpl.
  - by rewrite Ascii.eqb_refl.
  - destruct (Ascii.eqb c sep); [done|]. simpl. intros Hfree. by rewrite IH.
Qed.

(** Splitting what was joined gives the pieces back. *)
Lemma split_join (sep : ascii) (lines : list string) :
  lines <> [] -> Forall (fun l => free_of sep l = true) lines ->
  split sep (join (String sep EmptyString) lines) = lines.
Proof.
  induction lines as [|l lines IH]; [done|]. intros _ Hfree.
  apply Forall_cons in Hfree as [Hl Hlines].
  destruct lines as [|l' lines].
  - by apply split_no_sep.
  - change (join (String sep EmptyString) (l :: l' :: lines))
      with (l +:+ String sep EmptyString +:+ join (String sep EmptyString) (l' :: lines)).
    change (String sep EmptyString +:+ ?x) with (String sep x).
    rewrite split_app_sep by done. by rewrite IH.
Qed.

(** Every content is the join of its lines. *)
Lemma join_split (sep : ascii) (data : string) :
  join (String sep EmptyString) (split sep data) = data /\
  split sep data <> [] /\
  Forall (fun l => free_of sep l = true) (split sep data).
Proof.
  induction data as [|c data (IHjoin & IHne & IHfree)]; simpl.
  - split; [done|]. split; [done|]. by constructor.
  - destruct (Ascii.eqb_spec c sep) as [->|Hne].
    + split.
      * destruct (split sep data) as [|l ls]; [done|].
        change (join (String sep EmptyString) (EmptyString :: l :: ls))
          with (String sep (join (String sep EmptyString) (l :: ls))).
        by rewrite IHjoin.
      * split; [done|]. by constructor.
    + destruct (split sep data) as [|l ls]; [done|]. split.
      * rewrite <- IHjoin. by destruct ls.
      * split; [done|]. apply Forall_cons in IHfree as [Hl Hls].
        constructor; [|done]. simpl. rewrite Hl.
        by destruct (Ascii.eqb_spec c sep).
Qed.

Section ReadEvents.
Context `{Runtime}.

(** The pipeline of [readEvents] on the lines of the file. *)
Lemma parsed_lines (lines : list string) :
  omap Flat.keep (map Flat.parse_line (List.filter truthy_string lines))
  = records_of lines.
Proof.
  unfold records_of. induction lines as [|l lines IH]; [done|].
  cbn [List.filter flat_map]. unfold record_of_line at 1.
  destruct (truthy_string l); [|done].
  cbn [map omap list_omap]. rewrite IH. unfold Flat.parse_line.
  destruct (JSON_parse l) as [v|e]; [|done]. simpl. by destruct (Boolean v).
Qed.

Lemma readEvents_content (st : Flat.Store) (data : string) :
  Flat.readFile st = Ok data ->
  Flat.readEvents st = Ok (records_of (split newline data)).
Proof.
  intros Hread. unfold Flat.readEvents. by rewrite Hread, parsed_lines.
Qed.

Lemma records_of_In (lines : list string) (l : string) (v : json_value) :
  In l lines -> l <> EmptyString -> JSON_parse l = Ok v -> Boolean v = true ->
  In v (records_of lines).
Proof.
  intros Hin Hne Hparse Htruthy. unfold records_of. apply in_flat_map.
  exists l. split; [done|]. unfold record_of_line.
  destruct l; [done|]. simpl. rewrite Hparse, Htruthy. by left.
Qed.

(** C8.  When the events file holds the lines [before], then a line that
    does not parse, then the lines [after], [readEvents] returns the
    records of [before] followed by the records of [after]: the malformed
    line is skipped alone, and the record of every line that parses to one
    is returned. *)
Theorem readEvents_skips_malformed
    (st : Flat.Store) (before after : list string) (bad : string) (e : error) :
  Forall (fun l => free_of newline l = true) (before ++ bad :: after)%list ->
  JSON_parse bad = Throw e ->
  Flat.readFile st = Ok (join (String newline EmptyString) (before ++ bad :: after)%list) ->
  Flat.readEvents st = Ok (records_of before ++ records_of after)%list /\
  forall l v, In l (before ++ after)%list -> l <> EmptyString ->
    JSON_parse l = Ok v -> Boolean v = true ->
    In v (records_of before ++ records_of after)%list.
Proof.
  intros Hfree Hbad Hread. split.
  - rewrite (readEvents_content _ _ Hread).
    rewrite split_join; [|by destruct before|done].
    unfold records_of. rewrite flat_map_app. simpl.
    unfold record_of_line at 2. rewrite Hbad. by destruct (truthy_string bad).
  - intros l v Hin Hne Hparse Htruthy.
    unfold records_of. rewrite <- flat_map_app.
    by apply (records_of_In _ l).
Qed.

(** C7.  When the events file does not exist, [readEvents] returns the
    empty list and [/stats] answers 200 with three tables of no rows; so
    it does for a file that is there and empty.  A read that fails with
    any other error makes [readEvents] throw that error, and the stats
    handler rejects with it. *)
Theorem readEvents_missing_store (st : Flat.Store) :
  (Flat.readFile st = Throw (FsError "ENOENT") ->
     Flat.readEvents st = Ok [] /\ Flat.stats st = Sent empty_stats_page) /\
  (Flat.readFile st = Ok EmptyString ->
     Flat.readEvents st = Ok [] /\ Flat.stats st = Sent empty_stats_page) /\
  (forall e, Flat.readFile st = Throw e -> error_code e <> Some "ENOENT" ->
     Flat.readEvents st = Throw e /\ Flat.stats st = Rejected e).
Proof.
  split; [|split].
  - intros Hread. unfold Flat.stats, Flat.readEvents. by rewrite Hread.
  - intros Hread. unfold Flat.stats, Flat.readEvents. by rewrite Hread.
  - intros e Hread Hcode. unfold Flat.stats, Flat.readEvents. rewrite Hread.
    by rewrite bool_decide_eq_false_2.
Qed.

End ReadEvents.

Lemma readEvents_skips_malformed_witness :
  let lines := [JSON_stringify sample_event; "{oops"; "7"] in
  Forall (fun l => free_of newline l = true) lines /\
  @JSON_parse sample_runtime "{oops" = Throw SyntaxError /\
  @Flat.readEvents sample_runtime
    {| Flat.events_file := Some (join (String newline EmptyString) lines);
       Flat.read_fault := None; Flat.write_fault := None |}
  = Ok [JObject sample_event; JOther true].
Proof.
  split; [repeat constructor|]. split; [reflexivity|].
  exact (proj1 (@readEvents_skips_malformed sample_runtime
                  {| Flat.events_file :=
                       Some (join (String newline EmptyString)
                               [JSON_stringify sample_event; "{oops"; "7"]);
                     Flat.read_fault := None; Flat.write_fault := None |}
                  [JSON_stringify sample_event] ["7"] "{oops" SyntaxError
                  ltac:(repeat constructor) eq_refl eq_refl)).
Defined.

Lemma readEvents_missing_store_witness :
  (Flat.readFile empty_store = Throw (FsError "ENOENT") /\
   @Flat.stats sample_runtime empty_store = Sent empty_stats_page) /\
  (Flat.readFile full_disk = Ok EmptyString /\
   @Flat.stats sample_runtime full_disk = Sent empty_stats_page) /\
  (Flat.readFile unreadable_store = Throw (FsError "EACCES") /\
   error_code (FsError "EACCES") <> Some "ENOENT" /\
   @Flat.stats sample_runtime unreadable_store = Rejected (FsError "EACCES")).
Proof.
  pose proof (@readEvents_missing_store sample_runtime) as Hthm.
  split; [|split].
  - split; [reflexivity|]. exact (proj2 (proj1 (Hthm empty_store) eq_refl)).
  - split; [reflexivity|].
    exact (proj2 (proj1 (proj2 (Hthm full_disk)) eq_refl)).
  - split; [reflexivity|]. split; [discriminate|].
    exact (proj2 (proj2 (proj2 (Hthm unreadable_store)) _ eq_refl
                    ltac:(discriminate))).
Defined.

(** ** Aggregation *)

Section Objects.
Context {A : Type}.
Implicit Types (o : object A) (k : string) (a : A).

Lemma get_own_set_own o k a k' :
  get_own (set_own o k a) k' = if decide (k = k') then Some a else get_own o k'.
Proof.
  induction o as [|[k0 a0] o IH]; simpl.
  - destruct (String.eqb_spec k k'); by case_decide.
  - destruct (String.eqb_spec k0 k) as [->|Hne]; simpl.
    + destruct (String.eqb_spec k k'); by case_decide.
    + rewrite IH. destruct (String.eqb_spec k0 k'); [|done].
      case_decide; congruence.
Qed.

Lemma In_keys o k : In k (map fst o) <-> get_own o k <> None.
Proof.
  induction o as [|[k0 a0] o IH]; simpl; [tauto|].
  destruct (String.eqb_spec k0 k) as [->|Hne]; [split; [done | by left]|].
  rewrite <- IH. split; [by intros [?|?] | by right].
Qed.

Lemma NoDup_keys_set_own o k a :
  NoDup (map fst o) -> NoDup (map fst (set_own o k a)).
Proof.
  induction o as [|[k0 a0] o IH]; simpl.
  - intros _. apply NoDup_singleton.
  - intros [Hk0 Ho]%NoDup_cons.
    destruct (String.eqb_spec k0 k) as [->|Hne]; simpl.
    + by apply NoDup_cons.
    + apply NoDup_cons. split; [|by apply IH].
      rewrite list_elem_of_In, In_keys, get_own_set_own.
      case_decide; [congruence|].
      by rewrite <- In_keys, <- list_elem_of_In.
Qed.

End Objects.

Lemma sort_insert_Permutation {A} (compare : A -> A -> Z) (x : A) (l : list A) :
  sort_insert compare x l ≡ₚ x :: l.
Proof.
  induction l as [|y l IH]; simpl; [done|].
  destruct (0 <? compare x y); [|done].
  by rewrite IH, Permutation_swap.
Qed.

Lemma sort_Permutation {A} (compare : A -> A -> Z) (l : list A) :
  sort compare l ≡ₚ l.
Proof.
  unfold sort. induction l as [|x l IH]; simpl; [done|].
  by rewrite sort_insert_Permutation, IH.
Qed.

Lemma filter_split_Permutation {A} (p : A -> bool) (l : list A) :
  List.filter p l ++ List.filter (fun x => negb (p x)) l ≡ₚ l.
Proof.
  induction l as [|x l IH]; simpl; [done|].
  destruct (p x); simpl.
  - by rewrite IH.
  - by rewrite <- Permutation_middle, IH.
Qed.

(** [Object.keys] lists every own key once. *)
Lemma Object_keys_Permutation {A} (o : object A) :
  Object_keys o ≡ₚ map fst o.
Proof.
  unfold Object_keys. rewrite sort_Permutation.
  apply filter_split_Permutation.
Qed.

Lemma count_for_Permutation (c : string) (events1 events2 : list Event) :
  events1 ≡ₚ events2 -> count_for c events1 = count_for c events2.
Proof.
  induction 1 as [|e l1 l2 _ IH|e1 e2 l|l1 l2 l3 _ IH1 _ IH2]; simpl;
    [done | by rewrite IH | lia | congruence].
Qed.

Lemma leads_for_Permutation (c : string) (events1 events2 : list Event) :
  events1 ≡ₚ events2 -> leads_for c events1 = leads_for c events2.
Proof.
  induction 1 as [|e l1 l2 _ IH|e1 e2 l|l1 l2 l3 _ IH1 _ IH2];
    cbn [leads_for]; [done | by rewrite IH | | congruence].
  rewrite !(assoc_L (∪)). f_equal. apply (comm_L (∪)).
Qed.

(** The rows come ranked: [sort] puts the larger totals first. *)
Lemma sort_insert_Sorted {A} (f : A -> Z) (x : A) (l : list A) :
  Sorted (fun a b => f b <= f a) l ->
  Sorted (fun a b => f b <= f a) (sort_insert (fun a b => f b - f a) x l).
Proof.
  induction l as [|y l IH]; simpl; intros Hsorted.
  - by repeat constructor.
  - apply Sorted_inv in Hsorted as [Hl Hhd].
    destruct (Z.ltb_spec 0 (f y - f x)) as [Hlt|Hge].
    + constructor; [by apply IH|].
      destruct l as [|z l]; simpl.
      * constructor. lia.
      * apply HdRel_inv in Hhd.
        destruct (0 <? f z - f x); constructor; lia.
    + constructor; [by constructor|]. constructor. lia.
Qed.

Lemma sort_Sorted {A} (f : A -> Z) (l : list A) :
  Sorted (fun a b => f b <= f a) (sort (fun a b => f b - f a) l).
Proof.
  unfold sort. induction l as [|x l IH]; simpl; [constructor|].
  by apply sort_insert_Sorted.
Qed.

Lemma Sorted_weaken {A} (R R' : A -> A -> Prop) (l : list A) :
  (forall a b, R a b -> R' a b) -> Sorted R l -> Sorted R' l.
Proof.
  intros Himpl. induction 1 as [|x l Hl IH Hhd]; constructor; [done|].
  destruct Hhd; constructor. by apply Himpl.
Qed.

Lemma Sorted_map {A B} (R : B -> B -> Prop) (g : A -> B) (l : list A) :
  Sorted (fun a b => R (g a) (g b)) l -> Sorted R (map g l).
Proof.
  induction 1 as [|x l Hl IH Hhd]; simpl; constructor; [done|].
  destruct Hhd; simpl; by constructor.
Qed.

Lemma summarize_ranked (events : list Event) (rows : list Row) :
  Flat.summarize events = Ok rows ->
  Sorted (fun r1 r2 => (total r2 <= total r1)%nat) rows.
Proof.
  unfold Flat.summarize.
  destruct (Flat.summarize_loop _ events) as [[totals uniques]|e]; [|done].
  cbn [mbind result_bind]. intros [= <-].
  apply Sorted_map. cbn [total].
  eapply Sorted_weaken; [|apply (sort_Sorted
    (fun c => Z.of_nat (default 0%nat (get_own totals c))))].
  intros a b Hab. simpl in Hab. lia.
Qed.

Example summarize_ties :
  Flat.summarize [click_of "b" "lead1"; click_of "7" "lead1"; click_of "a" "lead1";
                  click_of "a" "lead2"]
  = Ok [ {| row_campaign := "a"; total := 2; unique := 2 |};
         {| row_campaign := "7"; total := 1; unique := 1 |};
         {| row_campaign := "b"; total := 1; unique := 1 |} ].
Proof. vm_compute. reflexivity. Qed.

(** There are no more distinct leads than events, and there is one as soon
    as there is an event. *)
Lemma size_leads_for (c : string) (events : list Event) :
  (size (leads_for c events) <= count_for c events)%nat /\
  (0 < count_for c events -> 0 < size (leads_for c events))%nat.
Proof.
  induction events as [|e events [IHle IHpos]]; cbn [leads_for count_for].
  - rewrite size_empty. lia.
  - case_decide.
    + split.
      * rewrite size_union_alt, size_singleton.
        assert (size (leads_for c events ∖ {[lead_id e]})
                <= size (leads_for c events))%nat
          by (apply subseteq_size, subseteq_difference_l; reflexivity).
        lia.
      * intros _. rewrite size_union_alt, size_singleton. lia.
    + by rewrite (left_id_L ∅ (∪)).
Qed.

Lemma leads_for_none (c : string) (events : list Event) :
  count_for c events = 0%nat -> leads_for c events = ∅.
Proof.
  induction events as [|e events IH]; cbn [leads_for count_for]; [done|].
  case_decide; [lia|]. intros Hcount. by rewrite IH, (left_id_L ∅ (∪)).
Qed.

Lemma summarize_step_plain (totals : object nat) (uniques : object (gset string))
    (e : Event) :
  inherited (campaign_key e) = false ->
  Flat.summarize_step (totals, uniques) e
  = Ok (set_own totals (campaign_key e)
          (default 0 (get_own totals (campaign_key e)) + 1)%nat,
        set_own uniques (campaign_key e)
          ({[lead_id e]} ∪ default ∅ (get_own uniques (campaign_key e)))).
Proof.
  intros Hplain. unfold Flat.summarize_step. fold (campaign_key e).
  by rewrite Hplain.
Qed.

(** One event filed under an inherited name makes the whole loop throw. *)
Lemma summarize_loop_throw (events : list Event)
    (acc : object nat * object (gset string)) :
  Exists (fun e => inherited (campaign_key e) = true) events ->
  Flat.summarize_loop acc events = Throw TypeError.
Proof.
  revert acc. induction events as [|e events IH]; intros [totals uniques] Hex.
  - by apply Exists_nil in Hex.
  - cbn [Flat.summarize_loop].
    destruct (inherited (campaign_key e)) eqn:Hkey.
    + unfold Flat.summarize_step. fold (campaign_key e). by rewrite Hkey.
    + rewrite summarize_step_plain by done.
      apply Exists_cons in Hex as [Hhere|Hlater]; [congruence|].
      by apply IH.
Qed.

(** Without such an event the loop ends, each key holding its count and
    its leads. *)
Lemma summarize_loop_plain (events : list Event)
    (totals : object nat) (uniques : object (gset string)) :
  plain_keys events -> NoDup (map fst totals) ->
  exists totals' uniques',
    Flat.summarize_loop (totals, uniques) events = Ok (totals', uniques') /\
    NoDup (map fst totals') /\
    (forall c, get_own totals' c = tally (get_own totals c) (count_for c events)) /\
    (forall c, get_own uniques' c
               = gather (get_own uniques c) (count_for c events) (leads_for c events)).
Proof.
  revert totals uniques.
  induction events as [|e events IH]; intros totals uniques Hplain Hnodup.
  - exists totals, uniques. by repeat split.
  - apply Forall_cons in Hplain as [He Hplain].
    cbn [Flat.summarize_loop]. rewrite summarize_step_plain by done.
    edestruct IH as (totals' & uniques' & Hloop & Hnodup' & Htotals & Huniques);
      [done | by apply NoDup_keys_set_own, Hnodup |].
    exists totals', uniques'. split; [exact Hloop|]. split; [done|].
    split; intros c.
    + rewrite Htotals, get_own_set_own. cbn [count_for].
      case_decide as Hkey.
      * subst c. destruct (count_for (campaign_key e) events); simpl; f_equal; lia.
      * done.
    + rewrite Huniques, get_own_set_own. cbn [count_for leads_for].
      case_decide as Hkey.
      * subst c.
        destruct (count_for (campaign_key e) events) eqn:Hcount; simpl; f_equal.
        -- by rewrite (leads_for_none _ _ Hcount), (right_id_L ∅ (∪)).
        -- rewrite (assoc_L (∪)). f_equal. apply (comm_L (∪)).
      * by rewrite (left_id_L ∅ (∪)).
Qed.

(** The loop of [summarize] either throws or ends. *)
Lemma plain_keys_dec (events : list Event) :
  plain_keys events \/
  Exists (fun e => inherited (campaign_key e) = true) events.
Proof.
  induction events as [|e events [IH|IH]].
  - left. constructor.
  - destruct (inherited (campaign_key e)) eqn:Hkey.
    + right. by left.
    + left. by constructor.
  - right. by right.
Qed.

Lemma plain_keys_Permutation (events1 events2 : list Event) :
  events1 ≡ₚ events2 -> plain_keys events1 -> plain_keys events2.
Proof. intros Hperm. unfold plain_keys. by rewrite Hperm. Qed.

Lemma summarize_throw (events : list Event) :
  Exists (fun e => inherited (campaign_key e) = true) events ->
  Flat.summarize events = Throw TypeError.
Proof.
  intros Hex. unfold Flat.summarize. by rewrite summarize_loop_throw.
Qed.

(** The rows of [summarize]: one for each campaign that an event carries,
    holding the number of its events and of its distinct leads. *)
Lemma summarize_rows (events : list Event) :
  plain_keys events ->
  exists rows,
    Flat.summarize events = Ok rows /\
    NoDup (map row_campaign rows) /\
    forall r, In r rows <->
      (0 < count_for (row_campaign r) events)%nat /\
      r = row_for (row_campaign r) events.
Proof.
  intros Hplain.
  destruct (summarize_loop_plain events [] [] Hplain (NoDup_nil_2 (A:=string)))
    as (totals & uniques & Hloop & Hnodup & Htotals & Huniques).
  unfold Flat.summarize.
  eexists. split; [rewrite Hloop; reflexivity|].
  set (keys := sort _ (Object_keys totals)).
  assert (Hkeys : keys ≡ₚ map fst totals)
    by (unfold keys; by rewrite sort_Permutation, Object_keys_Permutation).
  assert (Hrow : forall c, (0 < count_for c events)%nat ->
            {| row_campaign := c;
               total := default 0%nat (get_own totals c);
               unique := match get_own uniques c with
                         | Some leads => size leads
                         | None => 0%nat
                         end |} = row_for c events).
  { intros c Hpos. rewrite Htotals, Huniques. unfold row_for.
    destruct (count_for c events) eqn:Hcount; [lia|]. simpl.
    by rewrite (right_id_L ∅ (∪)). }
  assert (Hin : forall c, In c keys <-> (0 < count_for c events)%nat).
  { intros c. rewrite <- !list_elem_of_In, Hkeys, list_elem_of_In.
    rewrite In_keys, Htotals.
    destruct (count_for c events); simpl; split; (done || lia). }
  split.
  - rewrite map_map. cbn [row_campaign]. rewrite List.map_id.
    by rewrite Hkeys.
  - intros r. rewrite in_map_iff. split.
    + intros (c & <- & Hc). cbn [row_campaign].
      apply Hin in Hc. split; [done|]. by apply Hrow.
    + intros [Hpos Hr]. exists (row_campaign r). split.
      * by rewrite Hrow.
      * by apply Hin.
Qed.

(** C9.  Summarizing a list of events and summarizing a permutation of it
    end alike: both throw, or both return rows, the same rows up to their
    order, with one row for each campaign key; so each key has the same
    total and the same number of unique leads in both. *)
Theorem summarize_order_independent (events1 events2 : list Event) :
  events1 ≡ₚ events2 ->
  (Flat.summarize events1 = Throw TypeError /\
   Flat.summarize events2 = Throw TypeError) \/
  (exists rows1 rows2,
     Flat.summarize events1 = Ok rows1 /\ Flat.summarize events2 = Ok rows2 /\
     NoDup (map row_campaign rows1) /\ NoDup (map row_campaign rows2) /\
     rows1 ≡ₚ rows2).
Proof.
  intros Hperm. destruct (plain_keys_dec events1) as [Hplain|Hex].
  - right.
    destruct (summarize_rows events1 Hplain) as (rows1 & Hsum1 & Hnodup1 & Hrows1).
    destruct (summarize_rows events2 (plain_keys_Permutation _ _ Hperm Hplain))
      as (rows2 & Hsum2 & Hnodup2 & Hrows2).
    exists rows1, rows2. repeat split; try done.
    apply NoDup_Permutation.
    + by apply (NoDup_fmap_1 row_campaign).
    + by apply (NoDup_fmap_1 row_campaign).
    + intros r. rewrite !list_elem_of_In, Hrows1, Hrows2. unfold row_for.
      by rewrite (count_for_Permutation _ _ _ Hperm),
                 (leads_for_Permutation _ _ _ Hperm).
  - left. split; [by apply summarize_throw|].
    apply summarize_throw. by rewrite <- Hperm.
Qed.

Lemma count_for_pos (c : string) (events : list Event) :
  (0 < count_for c events)%nat -> exists e, In e events /\ campaign_key e = c.
Proof.
  induction events as [|e events IH]; cbn [count_for]; [lia|].
  case_decide as Hkey.
  - intros _. exists e. split; [by left | done].
  - intros Hpos. destruct (IH Hpos) as (e' & Hin & Hkey'). exists e'.
    split; [by right | done].
Qed.

(** C10.  [summarize] returns rows whenever no event is filed under a
    member of [Object.prototype], and every row it returns has a total of
    at least 1, at least 1 unique lead and no more unique leads than its
    total, its campaign being the key of one of the events. *)
Theorem summarize_row_bounds (events : list Event) :
  (plain_keys events -> exists rows, Flat.summarize events = Ok rows) /\
  (forall rows, Flat.summarize events = Ok rows ->
     forall r, In r rows ->
       (1 <= total r)%nat /\ (1 <= unique r)%nat /\ (unique r <= total r)%nat /\
       exists e, In e events /\ campaign_key e = row_campaign r).
Proof.
  split.
  - intros Hplain. destruct (summarize_rows events Hplain) as (rows & Hsum & _).
    by exists rows.
  - intros rows Hsum r Hin.
    destruct (plain_keys_dec events) as [Hplain|Hex];
      [|rewrite (summarize_throw _ Hex) in Hsum; discriminate].
    destruct (summarize_rows events Hplain) as (rows' & Hsum' & _ & Hrows).
    assert (rows' = rows) as -> by congruence.
    apply Hrows in Hin as [Hpos Hr].
    destruct (size_leads_for (row_campaign r) events) as [Hle Hone].
    specialize (Hone Hpos). rewrite Hr. cbn [total unique row_campaign row_for].
    repeat split; [lia | lia | lia | by apply count_for_pos].
Qed.

Example summarize_sample :
  Flat.summarize sample_clicks
  = Ok [ {| row_campaign := "a"; total := 3; unique := 2 |};
         {| row_campaign := "b"; total := 1; unique := 1 |} ].
Proof. vm_compute. reflexivity. Qed.

(** A campaign named like a member of [Object.prototype] makes the
    aggregation throw. *)
Example summarize_constructor :
  Flat.summarize [click_of "a" "lead1"; click_of "constructor" "lead2"]
  = Throw TypeError.
Proof. reflexivity. Qed.

Lemma summarize_order_independent_witness :
  sample_clicks ≡ₚ rev sample_clicks /\
  exists rows1 rows2,
    Flat.summarize sample_clicks = Ok rows1 /\
    Flat.summarize (rev sample_clicks) = Ok rows2 /\
    rows1 ≡ₚ rows2.
Proof.
  assert (Hperm : sample_clicks ≡ₚ rev sample_clicks) by apply Permutation_rev.
  split; [exact Hperm|].
  destruct (summarize_order_independent _ _ Hperm)
    as [[Hthrow _] | (rows1 & rows2 & H1 & H2 & _ & _ & Hrows)].
  - exfalso. rewrite summarize_sample in Hthrow. discriminate.
  - exists rows1, rows2. by repeat split.
Defined.

Lemma summarize_row_bounds_witness :
  plain_keys sample_clicks /\
  exists rows,
    Flat.summarize sample_clicks = Ok rows /\
    forall r, In r rows ->
      (1 <= total r)%nat /\ (1 <= unique r)%nat /\ (unique r <= total r)%nat.
Proof.
  assert (Hplain : plain_keys sample_clicks) by (repeat constructor).
  split; [exact Hplain|].
  destruct (proj1 (summarize_row_bounds sample_clicks) Hplain) as [rows Hsum].
  exists rows. split; [exact Hsum|]. intros r Hin.
  destruct (proj2 (summarize_row_bounds sample_clicks) rows Hsum r Hin)
    as (Htotal & Hunique & Hle & _).
  by repeat split.
Defined.

(** * Further properties *)

(** ** The derived industry *)

(** [indexOf] finds nothing, or it finds the part before the first
    occurrence. *)
Lemma indexOf_cases (s sep : string) :
  (indexOf s sep = -1 /\ absent sep s) \/
  (exists pre, before_first sep s pre /\ indexOf s sep = Z.of_nat (String.length pre)).
Proof.
  unfold indexOf.
  destruct (indexOf_from_spec sep s 0) as [[Hidx Habs] | (n & Hidx & Hocc & Hmin)];
    [lia | by left |].
  right. destruct Hocc as (pre & post & -> & <-).
  exists pre. split; [|lia]. split; [by exists post | done].
Qed.

Lemma includes_false (s sep : string) : absent sep s -> includes s sep = false.
Proof. intros Habs. unfold includes. by rewrite (indexOf_absent _ _ Habs). Qed.

(** The part before the first occurrence holds no occurrence. *)
Lemma before_first_absent (sep s pre : string) :
  sep <> EmptyString -> before_first sep s pre -> absent sep pre.
Proof.
  intros Hsep [[post ->] Hmin] j (p1 & p2 & Hpre & Hlen).
  apply (Hmin j).
  - subst pre j. rewrite !string_length_app.
    destruct sep; [done | simpl; lia].
  - exists p1, (p2 +:+ sep +:+ post). split; [|done].
    subst pre. by rewrite !string_app_assoc.
Qed.

Lemma prefix_app_true (pre rest : string) : String.prefix pre (pre +:+ rest) = true.
Proof. apply prefix_app. by exists rest. Qed.

Lemma pickIndustryFromCampaign_cases (s : string) :
  Flat.pickIndustryFromCampaign s = EmptyString \/
  before_first "_v" s (Flat.pickIndustryFromCampaign s).
Proof.
  destruct (indexOf_cases s "_v") as [[_ Habs] | (pre & Hpre & _)].
  - left. by apply pickIndustryFromCampaign_absent.
  - right. by rewrite (pickIndustryFromCampaign_before _ _ Hpre).
Qed.

Lemma getIndustryFromCampaign_cases (s : string) :
  (absent "_" s /\ Sqlite.getIndustryFromCampaign s = s) \/
  before_first "_" s (Sqlite.getIndustryFromCampaign s).
Proof.
  destruct (indexOf_cases s "_") as [[_ Habs] | (pre & Hpre & _)].
  - left. split; [done | by apply getIndustryFromCampaign_absent].
  - right. by rewrite (getIndustryFromCampaign_before _ _ Hpre).
Qed.

(** X1.  In both variants the derived industry is a prefix of the campaign
    and holds no separator itself: no [_v] in the flat-file variant, no
    [_] in the sqlite variant. *)
Theorem industry_prefix_without_separator (s : string) :
  (String.prefix (Flat.pickIndustryFromCampaign s) s = true /\
   includes (Flat.pickIndustryFromCampaign s) "_v" = false) /\
  (String.prefix (Sqlite.getIndustryFromCampaign s) s = true /\
   includes (Sqlite.getIndustryFromCampaign s) "_" = false).
Proof.
  split.
  - destruct (pickIndustryFromCampaign_cases s) as [-> | Hpre].
    + split; [by destruct s | done].
    + split.
      * destruct Hpre as [[post Hs] _]. rewrite Hs at 2. apply prefix_app_true.
      * by apply includes_false, (before_first_absent "_v" s).
  - destruct (getIndustryFromCampaign_cases s) as [[Habs ->] | Hpre].
    + split; [|by apply includes_false].
      rewrite <- (string_app_empty_r s) at 2. apply prefix_app_true.
    + split.
      * destruct Hpre as [[post Hs] _]. rewrite Hs at 2. apply prefix_app_true.
      * by apply includes_false, (before_first_absent "_" s).
Qed.

(** X2.  Deriving the industry of a derived industry: the sqlite variant
    gives the same industry again, the flat-file variant gives the empty
    string. *)
Theorem industry_derived_twice (s : string) :
  Sqlite.getIndustryFromCampaign (Sqlite.getIndustryFromCampaign s)
  = Sqlite.getIndustryFromCampaign s /\
  Flat.pickIndustryFromCampaign (Flat.pickIndustryFromCampaign s) = EmptyString.
Proof.
  split.
  - apply getIndustryFromCampaign_absent.
    destruct (getIndustryFromCampaign_cases s) as [[Habs ->] | Hpre]; [done|].
    by apply (before_first_absent "_" s).
  - apply pickIndustryFromCampaign_absent.
    destruct (pickIndustryFromCampaign_cases s) as [-> | Hpre].
    + by apply absent_of_indexOf.
    + by apply (before_first_absent "_v" s).
Qed.

(** Two prefixes of one string: the shorter is a prefix of the longer. *)
Lemma prefix_of_prefix (a x b y : string) :
  a +:+ x = b +:+ y -> (String.length b <= String.length a)%nat ->
  exists r, a = b +:+ r.
Proof.
  revert a. induction b as [|c b IH]; intros a Heq Hlen.
  - by exists a.
  - destruct a as [|d a]; simpl in *; [lia|].
    injection Heq as -> Heq. destruct (IH a Heq) as [r ->]; [lia|]. by exists r.
Qed.

(** X3.  Where the flat-file variant derives an industry, the industry of
    the sqlite variant is a prefix of it: the first [_] comes no later
    than the first [_v]. *)
Theorem industry_variants_nested (s : string) :
  Flat.pickIndustryFromCampaign s <> EmptyString ->
  String.prefix (Sqlite.getIndustryFromCampaign s) (Flat.pickIndustryFromCampaign s)
  = true.
Proof.
  intros Hne. destruct (pickIndustryFromCampaign_cases s) as [? | Hflat]; [done|].
  set (ind := Flat.pickIndustryFromCampaign s) in *.
  destruct Hflat as [[post Hs] _].
  assert (Hocc : occurs_at "_" s (String.length ind))
    by (exists ind, ("v" +:+ post); by rewrite Hs).
  destruct (getIndustryFromCampaign_cases s) as [[Habs _] | Hsql];
    [by destruct (Habs (String.length ind))|].
  set (ind' := Sqlite.getIndustryFromCampaign s) in *.
  destruct Hsql as [[post' Hs'] Hmin].
  destruct (prefix_of_prefix ind ("_v" +:+ post) ind' ("_" +:+ post')) as [r ->].
  - congruence.
  - destruct (Nat.le_gt_cases (String.length ind') (String.length ind)); [done|].
    by destruct (Hmin (String.length ind)).
  - apply prefix_app_true.
Qed.

Lemma industry_variants_nested_witness :
  Flat.pickIndustryFromCampaign "food_trucks_v2" <> EmptyString /\
  String.prefix (Sqlite.getIndustryFromCampaign "food_trucks_v2")
                (Flat.pickIndustryFromCampaign "food_trucks_v2") = true.
Proof.
  split; [discriminate|].
  apply (industry_variants_nested "food_trucks_v2"). discriminate.
Defined.

(** ** The address that is hashed *)



(** ** One event, one line *)

Lemma free_of_app (c : ascii) (s1 s2 : string) :
  free_of c (s1 +:+ s2) = free_of c s1 && free_of c s2.
Proof.
  induction s1 as [|d s1 IH]; simpl; [done|].
  rewrite IH. by destruct (Ascii.eqb d c).
Qed.

Lemma free_of_map_chars (c : ascii) (f : ascii -> string) (s : string) :
  (forall d, free_of c (f d) = true) -> free_of c (map_chars f s) = true.
Proof.
  intros Hf. induction s as [|d s IH]; simpl; [done|].
  by rewrite free_of_app, Hf, IH.
Qed.

(** No escape of [JSON.stringify] is or holds a line feed. *)
Lemma json_escape_newline (d : ascii) : free_of newline (json_escape d) = true.
Proof. destruct d as [[] [] [] [] [] [] [] []]; reflexivity. Qed.

Lemma JSON_stringify_string_newline (s : string) :
  free_of newline (JSON_stringify_string s) = true.
Proof.
  unfold JSON_stringify_string.
  by rewrite !free_of_app, (free_of_map_chars _ _ _ json_escape_newline).
Qed.

Lemma JSON_stringify_newline (ev : Event) :
  free_of newline (JSON_stringify ev) = true.
Proof.
  unfold JSON_stringify. cbn [join].
  by rewrite !free_of_app, !JSON_stringify_string_newline.
Qed.

(** X5.  The serialized event holds no line feed, whatever its members
    hold: the line [appendEvent] writes is one line, ended by the only
    line feed in it. *)
Theorem appended_line_is_one_line (ev : Event) :
  free_of newline (JSON_stringify ev) = true /\
  split newline (JSON_stringify ev +:+ String newline EmptyString)
  = [JSON_stringify ev; EmptyString].
Proof.
  split; [apply JSON_stringify_newline|].
  by rewrite split_app_sep by apply JSON_stringify_newline.
Qed.

Example stringify_line_feed :
  JSON_stringify_string (String newline "x") = quote +:+ "\nx" +:+ quote.
Proof. reflexivity. Qed.

(** ** Sequences of tracking requests *)

Section Sequences.
Context `{Runtime}.

(** What a handler does to the store is to record its event. *)
Lemma serve_store (env : Flat.Env) (st : Flat.Store) (h : Hit) :
  fst (serve env st h) = Flat.record st (hit_event h).
Proof.
  unfold serve, hit_event. destruct (hit_route h); [apply click_store | done | done].
Qed.

Lemma record_faults (st : Flat.Store) (ev : Event) :
  Flat.read_fault (Flat.record st ev) = Flat.read_fault st /\
  Flat.write_fault (Flat.record st ev) = Flat.write_fault st.
Proof.
  unfold Flat.record, Flat.appendEvent, Flat.appendFile.
  by destruct (Flat.write_fault st) eqn:Hfault.
Qed.

Lemma lines_text_app (lines1 lines2 : list string) :
  lines_text (lines1 ++ lines2) = lines_text lines1 +:+ lines_text lines2.
Proof.
  induction lines1 as [|l lines1 IH]; simpl; [done|].
  rewrite IH. change (String newline ?x) with (String newline EmptyString +:+ x).
  by rewrite !string_app_assoc.
Qed.

Lemma serve_all_faults (env : Flat.Env) (st : Flat.Store) (hits : list Hit) :
  Flat.read_fault (serve_all env st hits) = Flat.read_fault st /\
  Flat.write_fault (serve_all env st hits) = Flat.write_fault st.
Proof.
  revert st. induction hits as [|h hits IH]; intros st; simpl; [done|].
  destruct (IH (fst (serve env st h))) as [-> ->].
  rewrite serve_store. apply record_faults.
Qed.

Lemma serve_all_content (env : Flat.Env) (st : Flat.Store) (hits : list Hit) :
  Flat.write_fault st = None ->
  String_or_empty (Flat.events_file (serve_all env st hits))
  = String_or_empty (Flat.events_file st)
    +:+ lines_text (map (fun h => JSON_stringify (hit_event h)) hits).
Proof.
  revert st. induction hits as [|h hits IH]; intros st Hfault;
    cbn [serve_all map lines_text].
  - by rewrite string_app_empty_r.
  - rewrite IH by (rewrite serve_store; by rewrite (proj2 (record_faults _ _))).
    rewrite serve_store, (record_ok _ _ Hfault). cbn [String_or_empty].
    change (String newline (lines_text ?x))
      with (String newline EmptyString +:+ lines_text x).
    by rewrite !string_app_assoc.
Qed.

Lemma serve_all_fault (env : Flat.Env) (st : Flat.Store) (hits : list Hit)
    (code : string) :
  Flat.write_fault st = Some code -> serve_all env st hits = st.
Proof.
  intros Hfault. induction hits as [|h hits IH]; simpl; [done|].
  by rewrite serve_store, (record_fault _ _ _ Hfault).
Qed.

(** X6.  The events file is append-only under the handlers: a sequence of
    tracking requests adds the line of each request's event, in the order
    of the requests, after what the file held; when appends fail, the
    sequence leaves the store as it was. *)
Theorem requests_append_lines (env : Flat.Env) (st : Flat.Store) (hits : list Hit) :
  (Flat.write_fault st = None ->
     String_or_empty (Flat.events_file (serve_all env st hits))
     = String_or_empty (Flat.events_file st)
       +:+ lines_text (map (fun h => JSON_stringify (hit_event h)) hits)) /\
  (forall code, Flat.write_fault st = Some code -> serve_all env st hits = st).
Proof.
  split; [apply serve_all_content | intros code; apply serve_all_fault].
Qed.

Lemma split_lines_text (lines : list string) :
  Forall (fun l => free_of newline l = true) lines ->
  split newline (lines_text lines) = (lines ++ [EmptyString])%list.
Proof.
  induction 1 as [|l lines Hl _ IH]; simpl; [done|].
  change (String newline ?x) with (String newline x).
  by rewrite split_app_sep, IH.
Qed.

Lemma lines_text_empty (lines : list string) :
  lines_text lines = EmptyString -> lines = [].
Proof.
  destruct lines as [|l lines]; [done|]. simpl.
  destruct l; discriminate.
Qed.

Lemma records_of_app (lines1 lines2 : list string) :
  records_of (lines1 ++ lines2) = (records_of lines1 ++ records_of lines2)%list.
Proof. apply flat_map_app. Qed.

(** A store of complete lines reads back as the records of its lines. *)
Lemma readEvents_holds_lines (st : Flat.Store) (lines : list string) :
  holds_lines st lines -> Flat.readEvents st = Ok (records_of lines).
Proof.
  intros (Hread & _ & Hcontent & Hfree).
  destruct (Flat.events_file st) as [data|] eqn:Hfile; simpl in Hcontent.
  - rewrite (readEvents_content st data)
      by (unfold Flat.readFile; by rewrite Hread, Hfile).
    rewrite Hcontent, split_lines_text by done.
    rewrite records_of_app. simpl. by rewrite app_nil_r.
  - symmetry in Hcontent. apply lines_text_empty in Hcontent as ->.
    unfold Flat.readEvents, Flat.readFile. by rewrite Hread, Hfile.
Qed.

Lemma serve_all_holds_lines (env : Flat.Env) (st : Flat.Store)
    (lines : list string) (hits : list Hit) :
  holds_lines st lines ->
  holds_lines (serve_all env st hits)
    (lines ++ map (fun h => JSON_stringify (hit_event h)) hits).
Proof.
  intros (Hread & Hwrite & Hcontent & Hfree).
  destruct (serve_all_faults env st hits) as [Hr Hw].
  split; [congruence|]. split; [congruence|]. split.
  - by rewrite serve_all_content, Hcontent, lines_text_app.
  - apply Forall_app. split; [done|].
    apply Forall_forall. intros l Hl%list_elem_of_In.
    apply in_map_iff in Hl as (h & <- & _). apply JSON_stringify_newline.
Qed.

Lemma JSON_stringify_truthy (ev : Event) : truthy_string (JSON_stringify ev) = true.
Proof. done. Qed.

Lemma records_of_stringified (hits : list Hit) :
  Forall (fun h => JSON_parse (JSON_stringify (hit_event h))
                   = Ok (JObject (hit_event h))) hits ->
  records_of (map (fun h => JSON_stringify (hit_event h)) hits)
  = map (fun h => JObject (hit_event h)) hits.
Proof.
  induction 1 as [|h hits Hh _ IH]; [done|].
  cbn [map]. change (records_of (?l :: ?ls)) with (record_of_line l ++ records_of ls)%list.
  rewrite IH. unfold record_of_line.
  by rewrite JSON_stringify_truthy, Hh.
Qed.

(** X7.  What the handlers write, [readEvents] reads: from a store of
    complete lines, after a sequence of tracking requests whose lines
    [JSON.parse] reads back, [readEvents] returns the records the store
    held, then the event of each request, in the order of the requests. *)
Theorem requests_read_back
    (env : Flat.Env) (st : Flat.Store) (lines : list string) (hits : list Hit) :
  holds_lines st lines ->
  Forall (fun h => JSON_parse (JSON_stringify (hit_event h))
                   = Ok (JObject (hit_event h))) hits ->
  Flat.readEvents st = Ok (records_of lines) /\
  Flat.readEvents (serve_all env st hits)
  = Ok (records_of lines ++ map (fun h => JObject (hit_event h)) hits)%list.
Proof.
  intros Hst Hparse. split; [by apply readEvents_holds_lines|].
  rewrite (readEvents_holds_lines _ _ (serve_all_holds_lines env st lines hits Hst)).
  by rewrite records_of_app, records_of_stringified.
Qed.

End Sequences.

Lemma requests_append_lines_witness :
  (Flat.write_fault empty_store = None /\
   String_or_empty
     (Flat.events_file
        (@serve_all sample_runtime landing_env empty_store [sample_hit; sample_open_hit]))
   = lines_text [JSON_stringify (@hit_event sample_runtime sample_hit);
                 JSON_stringify (@hit_event sample_runtime sample_open_hit)]) /\
  (Flat.write_fault full_disk = Some "ENOSPC" /\
   @serve_all sample_runtime landing_env full_disk [sample_hit; sample_open_hit]
   = full_disk).
Proof.
  split.
  - split; [reflexivity|].
    exact (proj1 (@requests_append_lines sample_runtime landing_env empty_store
                    [sample_hit; sample_open_hit]) eq_refl).
  - split; [reflexivity|].
    exact (proj2 (@requests_append_lines sample_runtime landing_env full_disk
                    [sample_hit; sample_open_hit]) "ENOSPC" eq_refl).
Defined.

Lemma requests_read_back_witness :
  let runtime :=
    replay_runtime [@hit_event sample_runtime sample_hit;
                    @hit_event sample_runtime sample_open_hit] in
  holds_lines empty_store [] /\
  @Flat.readEvents runtime
    (@serve_all runtime landing_env empty_store [sample_hit; sample_open_hit])
  = Ok [JObject (@hit_event runtime sample_hit);
        JObject (@hit_event runtime sample_open_hit)].
Proof.
  intros runtime.
  assert (Hst : holds_lines empty_store []) by (by repeat split).
  split; [exact Hst|].
  exact (proj2 (@requests_read_back runtime landing_env empty_store []
                  [sample_hit; sample_open_hit] Hst
                  ltac:(repeat constructor))).
Defined.

(** ** The stats page *)

Lemma summarize_cases (events : list Event) :
  (exists rows, Flat.summarize events = Ok rows) \/
  Flat.summarize events = Throw TypeError.
Proof.
  destruct (plain_keys_dec events) as [Hplain|Hex].
  - left. destruct (summarize_rows events Hplain) as (rows & Hsum & _). by exists rows.
  - right. by apply summarize_throw.
Qed.

Lemma of_type_In (t : string) (events : list json_value) (e : Event) :
  In (JObject e) events -> type e = t -> In e (Flat.of_type t events).
Proof.
  intros Hin Htype. apply list_elem_of_In. unfold Flat.of_type.
  apply list_elem_of_omap. exists (JObject e).
  split; [by apply list_elem_of_In|]. simpl. rewrite Htype.
  by rewrite String.eqb_refl.
Qed.

Lemma summarize_of_type_throw (t : string) (events : list json_value) (e : Event) :
  In (JObject e) events -> type e = t -> inherited (campaign_key e) = true ->
  Flat.summarize (Flat.of_type t events) = Throw TypeError.
Proof.
  intros Hin Htype Hkey. apply summarize_throw, Exists_exists.
  exists e. split; [by apply list_elem_of_In, of_type_In | done].
Qed.

Section Stats.
Context `{Runtime}.

(** One stored event of a tracked type filed under an inherited name is
    enough for the stats handler to reject. *)
Lemma stats_rejects (st : Flat.Store) (events : list json_value) (e : Event) :
  Flat.readEvents st = Ok events -> In (JObject e) events ->
  In (type e) ["click"; "open"; "conv"] ->
  inherited (campaign_key e) = true ->
  Flat.stats st = Rejected TypeError.
Proof.
  intros Hread Hin Htype Hkey. unfold Flat.stats. rewrite Hread.
  pose proof (summarize_of_type_throw (type e) events e Hin eq_refl Hkey) as Hthrow.
  destruct (summarize_cases (Flat.of_type "click" events)) as [[rows1 H1] | H1];
    rewrite H1; [|done].
  destruct (summarize_cases (Flat.of_type "open" events)) as [[rows2 H2] | H2];
    rewrite H2; [|done].
  destruct (summarize_cases (Flat.of_type "conv" events)) as [[rows3 H3] | H3];
    rewrite H3; [|done].
  simpl in Htype. destruct Htype as [Ht|[Ht|[Ht|[]]]]; rewrite <- Ht in Hthrow;
    congruence.
Qed.

(** X8.  When the events [readEvents] returns hold a click, an open or a
    conversion whose campaign is named like a member of
    [Object.prototype] ([constructor], [toString], [__proto__], ...), the
    stats handler rejects with a TypeError and sends no page. *)
Theorem stats_rejects_inherited_campaign
    (st : Flat.Store) (events : list json_value) (e : Event) :
  Flat.readEvents st = Ok events -> In (JObject e) events ->
  In (type e) ["click"; "open"; "conv"] ->
  In (campaign e) Object_prototype_keys ->
  Flat.stats st = Rejected TypeError.
Proof.
  intros Hread Hin Htype Hcamp. apply (stats_rejects st events e); try done.
  unfold campaign_key, inherited.
  assert (or_else (campaign e) "(none)" = campaign e) as ->.
  { unfold or_else. destruct (campaign e); [|done].
    simpl in Hcamp. repeat (destruct Hcamp as [Hcamp|Hcamp]; [discriminate|]). done. }
  by apply bool_decide_eq_true_2, list_elem_of_In.
Qed.

(** X9.  A request that names such a campaign breaks the stats page for
    good: from a store of complete lines, once a tracking request with a
    campaign named like a member of [Object.prototype] is recorded, the
    stats handler rejects with a TypeError after any further requests. *)
Theorem inherited_campaign_breaks_stats
    (env : Flat.Env) (st : Flat.Store) (lines : list string)
    (h : Hit) (later : list Hit) :
  holds_lines st lines ->
  JSON_parse (JSON_stringify (hit_event h)) = Ok (JObject (hit_event h)) ->
  In (String_or_empty (query_c (hit_request h))) Object_prototype_keys ->
  Flat.stats (serve_all env st (h :: later)) = Rejected TypeError.
Proof.
  intros Hst Hparse Hcamp.
  pose proof (readEvents_holds_lines _ _
                (serve_all_holds_lines env st lines (h :: later) Hst)) as Hread.
  apply (stats_rejects _ _ (hit_event h) Hread).
  - apply (records_of_In _ (JSON_stringify (hit_event h))); try done.
    apply in_or_app. right. by left.
  - unfold hit_event. destruct (hit_route h); simpl; tauto.
  - assert (campaign (hit_event h) = String_or_empty (query_c (hit_request h)))
      as Hcampaign by (unfold hit_event; by destruct (hit_route h)).
    unfold campaign_key, inherited. rewrite Hcampaign.
    assert (or_else (String_or_empty (query_c (hit_request h))) "(none)"
            = String_or_empty (query_c (hit_request h))) as ->.
    { unfold or_else. destruct (String_or_empty (query_c (hit_request h))); [|done].
      simpl in Hcamp. repeat (destruct Hcamp as [Hcamp|Hcamp]; [discriminate|]). done. }
    by apply bool_decide_eq_true_2, list_elem_of_In.
Qed.

End Stats.

Lemma stats_rejects_inherited_campaign_witness :
  let runtime := replay_runtime [click_of "toString" "lead"] in
  let st := {| Flat.events_file :=
                 Some (lines_text [JSON_stringify (click_of "toString" "lead")]);
               Flat.read_fault := None; Flat.write_fault := None |} in
  @Flat.readEvents runtime st = Ok [JObject (click_of "toString" "lead")] /\
  @Flat.stats runtime st = Rejected TypeError.
Proof.
  intros runtime st.
  assert (Hread : @Flat.readEvents runtime st = Ok [JObject (click_of "toString" "lead")])
    by reflexivity.
  split; [exact Hread|].
  exact (@stats_rejects_inherited_campaign runtime st _ (click_of "toString" "lead")
           Hread ltac:(by left) ltac:(by left) ltac:(simpl; tauto)).
Defined.

Lemma inherited_campaign_breaks_stats_witness :
  let runtime := replay_runtime [@hit_event sample_runtime constructor_hit] in
  holds_lines empty_store [] /\
  In (String_or_empty (query_c (hit_request constructor_hit))) Object_prototype_keys /\
  @Flat.stats runtime
    (@serve_all runtime landing_env empty_store [constructor_hit; sample_hit])
  = Rejected TypeError.
Proof.
  intros runtime.
  assert (Hst : holds_lines empty_store []) by (by repeat split).
  split; [exact Hst|]. split; [by left|].
  exact (@inherited_campaign_breaks_stats runtime landing_env empty_store []
           constructor_hit [sample_hit] Hst eq_refl ltac:(by left)).
Defined.

(** ** The rows of a table *)

Lemma sum_indicator_absent (k : string) (keys : list string) :
  ~ In k keys ->
  sum_list_with (fun c => if decide (k = c) then 1 else 0)%nat keys = 0%nat.
Proof.
  induction keys as [|c keys IH]; [done|]. simpl. intros Hnotin.
  rewrite decide_False by (intros ->; apply Hnotin; by left).
  rewrite IH; [done|]. intros Hin. apply Hnotin. by right.
Qed.

Lemma sum_indicator (k : string) (keys : list string) :
  NoDup keys -> In k keys ->
  sum_list_with (fun c => if decide (k = c) then 1 else 0)%nat keys = 1%nat.
Proof.
  induction keys as [|c keys IH]; [done|].
  intros [Hc Hkeys]%NoDup_cons. rewrite list_elem_of_In in Hc.
  simpl. intros [Heq|Hin].
  - subst c. rewrite decide_True by done.
    by rewrite sum_indicator_absent.
  - rewrite decide_False by (intros ->; by apply Hc).
    by rewrite IH.
Qed.

Lemma sum_list_with_add {A} (f g : A -> nat) (l : list A) :
  sum_list_with (fun x => f x + g x)%nat l
  = (sum_list_with f l + sum_list_with g l)%nat.
Proof. induction l as [|x l IH]; simpl; [done | rewrite IH; lia]. Qed.

(** Over keys that cover the events, the counts add up to the events. *)
Lemma sum_count_for (keys : list string) (events : list Event) :
  NoDup keys -> (forall e, In e events -> In (campaign_key e) keys) ->
  sum_list_with (fun c => count_for c events) keys = length events.
Proof.
  intros Hnodup. induction events as [|e events IH]; intros Hcover.
  - simpl. clear. induction keys as [|c keys IH]; [done|]. simpl. by rewrite IH.
  - cbn [count_for length].
    rewrite sum_list_with_add, IH by (intros e' He'; apply Hcover; by right).
    rewrite sum_indicator; [done | done | apply Hcover; by left].
Qed.

Lemma count_for_In (e : Event) (events : list Event) :
  In e events -> (0 < count_for (campaign_key e) events)%nat.
Proof.
  induction events as [|e' events IH]; [done|]. cbn [count_for].
  intros [->|Hin]; [rewrite decide_True by done; lia|].
  specialize (IH Hin). lia.
Qed.

(** X10.  When no campaign is named like a member of [Object.prototype],
    [summarize] returns one row for each campaign key that an event
    carries and no other row; the row of a key holds the number of events
    with that key as its total and the number of distinct leads among
    them as its unique count.  An empty campaign is counted under the key
    "(none)". *)
Theorem summarize_counts (events : list Event) :
  plain_keys events ->
  exists rows,
    Flat.summarize events = Ok rows /\
    NoDup (map row_campaign rows) /\
    (forall e, In e events ->
       In (row_for (or_else (campaign e) "(none)") events) rows) /\
    (forall r, In r rows ->
       (exists e, In e events /\ or_else (campaign e) "(none)" = row_campaign r) /\
       total r = count_for (row_campaign r) events /\
       unique r = size (leads_for (row_campaign r) events)).
Proof.
  intros Hplain.
  destruct (summarize_rows events Hplain) as (rows & Hsum & Hnodup & Hrows).
  exists rows. split; [done|]. split; [done|]. split.
  - intros e He. apply Hrows. split; [|done]. by apply count_for_In.
  - intros r [Hpos Hr]%Hrows. split; [by apply count_for_pos|].
    by rewrite Hr.
Qed.

(** X11.  The totals of the rows [summarize] returns add up to the number
    of events: every event is counted in one row, once. *)
Theorem summarize_totals_add_up (events : list Event) (rows : list Row) :
  Flat.summarize events = Ok rows ->
  sum_list_with total rows = length events.
Proof.
  intros Hsum.
  destruct (plain_keys_dec events) as [Hplain|Hex];
    [|rewrite (summarize_throw _ Hex) in Hsum; discriminate].
  destruct (summarize_rows events Hplain) as (rows' & Hsum' & Hnodup & Hrows).
  assert (rows' = rows) as -> by congruence.
  rewrite <- (sum_count_for (map row_campaign rows) events Hnodup).
  - clear Hsum Hsum' Hnodup.
    assert (Hall : forall r, In r rows -> total r = count_for (row_campaign r) events).
    { intros r [_ Hr]%Hrows. by rewrite Hr. }
    clear Hrows. induction rows as [|r rows IH]; [done|]. simpl.
    rewrite IH by (intros r' Hr'; apply Hall; by right).
    by rewrite (Hall r) by (by left).
  - intros e He. apply in_map_iff. exists (row_for (campaign_key e) events).
    split; [done|]. apply Hrows. split; [by apply count_for_In | done].
Qed.

(** X12.  The rows [summarize] returns are ranked: a row's total is never
    below the total of a row after it. *)
Theorem summarize_ranked_by_total (events : list Event) (rows : list Row) :
  Flat.summarize events = Ok rows ->
  StronglySorted (fun r1 r2 => (total r2 <= total r1)%nat) rows.
Proof.
  intros Hsum. apply Sorted_StronglySorted; [|by apply (summarize_ranked events)].
  intros r1 r2 r3 H12 H23. lia.
Qed.

Lemma summarize_counts_witness :
  plain_keys sample_clicks /\
  exists rows,
    Flat.summarize sample_clicks = Ok rows /\
    In {| row_campaign := "a"; total := 3; unique := 2 |} rows.
Proof.
  assert (Hplain : plain_keys sample_clicks) by (repeat constructor).
  split; [exact Hplain|].
  destruct (summarize_counts sample_clicks Hplain) as (rows & Hsum & _ & Hin & _).
  exists rows. split; [exact Hsum|].
  exact (Hin (click_of "a" "lead1") ltac:(by left)).
Defined.

Lemma summarize_totals_add_up_witness :
  exists rows,
    Flat.summarize sample_clicks = Ok rows /\ sum_list_with total rows = 4%nat.
Proof.
  eexists. split; [exact summarize_sample|].
  exact (summarize_totals_add_up sample_clicks _ summarize_sample).
Defined.

Lemma summarize_ranked_by_total_witness :
  exists rows,
    Flat.summarize sample_clicks = Ok rows /\
    StronglySorted (fun r1 r2 => (total r2 <= total r1)%nat) rows.
Proof.
  eexists. split; [exact summarize_sample|].
  exact (summarize_ranked_by_total sample_clicks _ summarize_sample).
Defined.

(** ** The query of the redirect *)

Section Redirects.
Context `{Runtime}.

(** X13.  The click handler of the flat-file variant keeps what the
    landing base carries.  The Location is the base's text before the
    query and [?], as Express encodes them, the query, and the base's
    fragment, as Express encodes it; where the base's text and fragment
    are of plain URL code units the Location has them as they are.  The
    query has every parameter of the base under another name than the
    five the handler sets, as it was, and exactly one [lid], [utm_source],
    [utm_medium] and [c], however many the base had; there is exactly one
    [utm_campaign] when the request names a campaign, and those of the
    base when it does not. *)
Theorem click_keeps_landing_params
    (env : Flat.Env) (now : string) (st : Flat.Store) (req : Request) (base : URL) :
  Flat.LANDING_BASE env <> EmptyString ->
  URL_new (Flat.LANDING_BASE env) = Ok base ->
  exists params text,
    snd (Flat.click env now st req)
    = Sent {| status := 302; location := Some text; content_type := None;
              cache_control := None; body := RedirectNotice |} /\
    text = encodeUrl (url_base base +:+ "?")
           +:+ join "&" (map serialize_param params)
           +:+ encodeUrl (url_hash base) /\
    (all_chars url_plain (url_base base) = true ->
     all_chars url_plain (url_hash base) = true ->
     text = url_base base +:+ "?" +:+ join "&" (map serialize_param params)
            +:+ url_hash base) /\
    (forall k, ~ In k click_params -> named k params = named k (searchParams base)) /\
    named "lid" params = [("lid", params_lead_id req)] /\
    named "utm_source" params = [("utm_source", "coldemail")] /\
    named "utm_medium" params = [("utm_medium", "email")] /\
    named "c" params = [("c", String_or_empty (query_c req))] /\
    named "utm_campaign" params
    = if truthy_string (String_or_empty (query_c req))
      then [("utm_campaign", String_or_empty (query_c req))]
      else named "utm_campaign" (searchParams base).
Proof.
  intros Hbase Hurl.
  pose proof (flat_click_sends env now st req base Hbase Hurl) as Hsent.
  cbv zeta in Hsent. eexists _, _. split; [exact Hsent|].
  split; [reflexivity|]. split.
  { intros Hplain_base Hplain_hash.
    rewrite encodeUrl_plain_base, (encodeUrl_plain (url_hash base)) by done.
    by rewrite string_app_assoc. }
  destruct (String_or_empty (query_c req)) as [|c1 camp] eqn:Hcamp;
    cbn [truthy_string]; (split; [|repeat split]).
  all: try (intros k Hk; rewrite !named_set_ne; [done|..];
            intros ->; apply Hk; simpl; tauto).
  all: try (rewrite !named_set_ne by done; apply named_set_eq).
  all: try apply named_set_eq.
  by rewrite !named_set_ne.
Qed.

Lemma all_chars_map_chars (p : ascii -> bool) (f : ascii -> string) (s : string) :
  (forall c, all_chars p (f c) = true) -> all_chars p (map_chars f s) = true.
Proof.
  intros Hf. induction s as [|c s IH]; simpl; [done|].
  specialize (Hf c). induction (f c) as [|d t IHt]; simpl in *; [done|].
  apply andb_true_iff in Hf as [-> Ht]. simpl. by apply IHt.
Qed.

Lemma all_chars_free_of (p : ascii -> bool) (c : ascii) (s : string) :
  all_chars p s = true -> p c = false -> free_of c s = true.
Proof.
  intros Hall Hc. induction s as [|d s IH]; simpl in *; [done|].
  apply andb_true_iff in Hall as [Hd Hs]. rewrite IH by done.
  destruct (Ascii.eqb_spec d c) as [->|]; [congruence | done].
Qed.

(** [encodeURIComponent] writes letters, digits, [- _ . ! ~ * ' ( )] and
    escapes, nothing else. *)
Lemma encodeURIComponent_chars (s : string) :
  all_chars uri_component_char (encodeURIComponent s) = true.
Proof.
  apply all_chars_map_chars.
  intros c. destruct c as [[] [] [] [] [] [] [] []]; reflexivity.
Qed.

(** X14.  In the redirect of the sqlite variant the lead and the campaign
    cannot add or split parameters.  The Location is the landing base and
    [?], as Express encodes them, and as they are where the base is of
    plain URL code units, followed by a query that splits at [&] into the
    two parameters [lid] and [utm_campaign] and no more; the encoded lead
    and campaign hold no [&], [=], [#] or [?]. *)
Theorem sqlite_redirect_two_params
    (env : Sqlite.Env) (now : string) (db : Sqlite.Db) (req : Request)
    (digest : string) :
  Sqlite.LANDING_BASE env <> EmptyString ->
  Sqlite.hashIp (req_ip req) = Ok digest ->
  Sqlite.db_fault db = None ->
  exists query,
    snd (Sqlite.click env now db req)
    = Sent {| status := 302;
              location := Some (encodeUrl (Sqlite.LANDING_BASE env +:+ "?") +:+ query);
              content_type := None; cache_control := None;
              body := RedirectNotice |} /\
    (all_chars url_plain (Sqlite.LANDING_BASE env) = true ->
     encodeUrl (Sqlite.LANDING_BASE env +:+ "?") = Sqlite.LANDING_BASE env +:+ "?") /\
    split ampersand query
    = [ "lid=" +:+ encodeURIComponent (params_lead_id req);
        "utm_campaign=" +:+ encodeURIComponent (String_or_empty (query_c req)) ] /\
    Forall (fun c =>
              free_of c (encodeURIComponent (params_lead_id req)) = true /\
              free_of c (encodeURIComponent (String_or_empty (query_c req))) = true)
           (list_ascii_of_string "&=#?").
Proof.
  intros Hbase Hhash Hfault.
  exists ("lid=" +:+ encodeURIComponent (params_lead_id req)
          +:+ "&utm_campaign=" +:+ encodeURIComponent (String_or_empty (query_c req))).
  assert (Hfree : forall s c, uri_component_char c = false ->
            free_of c (encodeURIComponent s) = true)
    by (intros s c; apply all_chars_free_of, encodeURIComponent_chars).
  split; [|split; [|split]].
  - by apply (sqlite_click_sends _ _ _ _ digest).
  - apply encodeUrl_plain_base.
  - change ("&utm_campaign=" +:+ ?x) with (String ampersand ("utm_campaign=" +:+ x)).
    rewrite <- string_app_assoc, split_app_sep.
    + rewrite split_no_sep; [done|]. rewrite free_of_app. by rewrite Hfree.
    + rewrite free_of_app. by rewrite Hfree.
  - repeat constructor; by apply Hfree.
Qed.

End Redirects.

(** The fragment of the landing base reaches the browser encoded. *)
Example click_tagged_landing :
  snd (@Flat.click tagged_runtime tagged_landing_env sample_now empty_store sample_request)
  = Sent {| status := 302;
            location :=
              Some "https://example.com/land?ref=mail&lid=lead&utm_campaign=camp&utm_source=coldemail&utm_medium=email&c=camp#%7Btop%7D";
            content_type := None; cache_control := None;
            body := RedirectNotice |}.
Proof. reflexivity. Qed.

Lemma click_keeps_landing_params_witness :
  Flat.LANDING_BASE tagged_landing_env <> EmptyString /\
  exists base params text,
    @URL_new tagged_runtime (Flat.LANDING_BASE tagged_landing_env) = Ok base /\
    snd (@Flat.click tagged_runtime tagged_landing_env sample_now empty_store
           sample_request)
    = Sent {| status := 302; location := Some text; content_type := None;
              cache_control := None; body := RedirectNotice |} /\
    text = "https://example.com/land?" +:+ join "&" (map serialize_param params)
           +:+ "#%7Btop%7D" /\
    named "ref" params = [("ref", "mail")] /\
    named "lid" params = [("lid", "lead")].
Proof.
  split; [discriminate|].
  destruct (@click_keeps_landing_params tagged_runtime tagged_landing_env sample_now
              empty_store sample_request _ ltac:(discriminate) eq_refl)
    as (params & text & Hsent & Htext & _ & Hother & Hlid & _).
  eexists _, params, text. split; [reflexivity|]. split; [exact Hsent|].
  split; [exact Htext|]. split; [|exact Hlid].
  rewrite (Hother "ref"); [reflexivity|].
  simpl. intros [?|[?|[?|[?|[?|[]]]]]]; discriminate.
Defined.

Lemma sqlite_redirect_two_params_witness :
  Sqlite.LANDING_BASE {| Sqlite.env_LANDING_BASE := Some " https://example.com/land " |}
  <> EmptyString /\
  @Sqlite.hashIp sample_runtime (req_ip sample_request) = Ok sample_digest /\
  Sqlite.db_fault empty_db = None /\
  exists query,
    snd (@Sqlite.click sample_runtime
           {| Sqlite.env_LANDING_BASE := Some " https://example.com/land " |}
           sample_now empty_db sample_request)
    = Sent {| status := 302;
              location := Some ("%20https://example.com/land%20?" +:+ query);
              content_type := None; cache_control := None;
              body := RedirectNotice |} /\
    split ampersand query = ["lid=lead"; "utm_campaign=camp"].
Proof.
  split; [discriminate|]. split; [reflexivity|]. split; [reflexivity|].
  destruct (@sqlite_redirect_two_params sample_runtime
              {| Sqlite.env_LANDING_BASE := Some " https://example.com/land " |}
              sample_now empty_db sample_request sample_digest
              ltac:(discriminate) eq_refl eq_refl)
    as (query & Hsent & _ & Hsplit & _).
  exists query. split; [exact Hsent | exact Hsplit].
Defined.

(** The lead and the campaign reach the Location URI encoded, and a landing
    base with blanks around it reaches it with the blanks encoded. *)
Example sqlite_redirect_encoded :
  snd (@Sqlite.click sample_runtime landing_env_sqlite sample_now empty_db
         {| params_lead_id := "a&b=c"; query_c := Some "x y#z"; query_lid := None;
            header_user_agent := None; header_x_forwarded_for := None;
            socket_remoteAddress := None; req_ip := None |})
  = Sent {| status := 302;
            location :=
              Some "https://example.com/land?lid=a%26b%3Dc&utm_campaign=x%20y%23z";
            content_type := None; cache_control := None;
            body := RedirectNotice |} /\
  snd (@Sqlite.click sample_runtime
         {| Sqlite.env_LANDING_BASE := Some " https://example.com/land " |}
         sample_now empty_db sample_request)
  = Sent {| status := 302;
            location :=
              Some "%20https://example.com/land%20?lid=lead&utm_campaign=camp";
            content_type := None; cache_control := None;
            body := RedirectNotice |}.
Proof. split; reflexivity. Qed.

(** ** The stored hash *)

(** X15.  The [ip_hash] of every event the flat-file handlers build is at
    most 16 code units long, whatever the digest call returns. *)
Theorem ip_hash_at_most_16 `{Runtime} (h : Hit) :
  (String.length (ip_hash (hit_event h)) <= 16)%nat.
Proof.
  assert (Hlen : forall ip, (String.length (Flat.ipHash ip) <= 16)%nat).
  { intros ip. unfold Flat.ipHash.
    destruct (sha256_hex (or_else ip EmptyString)) as [digest|e]; [|simpl; lia].
    destruct (slice_0_prefix digest 16) as [_ Hlen].
    change (Z.of_nat 16) with 16 in Hlen. lia. }
  unfold hit_event. destruct (hit_route h); apply Hlen.
Qed.

(** ** The landing base in the environment *)

Lemma trimStart_blank (pad : string) :
  all_chars is_white_space pad = true -> trimStart pad = EmptyString.
Proof.
  induction pad as [|c pad IH]; simpl; [done|].
  intros [-> Hpad]%andb_true_iff. by apply IH.
Qed.

Lemma trimStart_pad (pad s : string) :
  all_chars is_white_space pad = true -> trimStart (pad +:+ s) = trimStart s.
Proof.
  induction pad as [|c pad IH]; simpl; [done|].
  intros [-> Hpad]%andb_true_iff. by apply IH.
Qed.

Lemma trimEnd_blank (pad : string) :
  all_chars is_white_space pad = true -> trimEnd pad = EmptyString.
Proof.
  induction pad as [|c pad IH]; simpl; [done|].
  intros [-> Hpad]%andb_true_iff. by rewrite IH.
Qed.

Lemma trimEnd_pad (s pad : string) :
  all_chars is_white_space pad = true -> trimEnd (s +:+ pad) = trimEnd s.
Proof.
  intros Hpad. induction s as [|c s IH]; simpl; [by apply trimEnd_blank|].
  by rewrite IH.
Qed.

Lemma trimStart_app (s pad : string) :
  trimStart s <> EmptyString -> trimStart (s +:+ pad) = trimStart s +:+ pad.
Proof.
  induction s as [|c s IH]; simpl; [done|].
  destruct (is_white_space c); [apply IH | done].
Qed.

(** White space around a text is trimmed away, and only that. *)
Lemma trim_padded (pad1 core pad2 : string) :
  all_chars is_white_space pad1 = true -> all_chars is_white_space pad2 = true ->
  trim (pad1 +:+ core +:+ pad2) = trim core.
Proof.
  intros Hpad1 Hpad2. unfold trim. rewrite trimStart_pad by done.
  destruct (trimStart core) as [|c rest] eqn:Hcore.
  - assert (Hblank : all_chars is_white_space core = true).
    { clear -Hcore. induction core as [|c core IH]; simpl in *; [done|].
      destruct (is_white_space c); [by apply IH | done]. }
    rewrite <- (string_app_empty_r (core +:+ pad2)), string_app_assoc.
    rewrite trimStart_pad by done. by rewrite trimStart_pad.
  - rewrite trimStart_app by (rewrite Hcore; done).
    rewrite Hcore. by apply trimEnd_pad.
Qed.

(** X16.  The flat-file variant reads the landing base without the white
    space around it: padding the environment value with white space
    changes nothing, and a value of white space only counts as no landing
    base, so the click handler answers 500.  The sqlite variant takes the
    value as it is. *)
Theorem landing_base_trimmed `{Runtime}
    (pad1 core pad2 : string) (now : string) (st : Flat.Store) (req : Request) :
  all_chars is_white_space pad1 = true -> all_chars is_white_space pad2 = true ->
  Flat.LANDING_BASE {| Flat.env_LANDING_BASE := Some (pad1 +:+ core +:+ pad2) |}
  = Flat.LANDING_BASE {| Flat.env_LANDING_BASE := Some core |} /\
  snd (Flat.click {| Flat.env_LANDING_BASE := Some (pad1 +:+ pad2) |} now st req)
  = Sent {| status := 500; location := None; content_type := None;
            cache_control := None; body := Text "LANDING_BASE not configured" |} /\
  Sqlite.LANDING_BASE {| Sqlite.env_LANDING_BASE := Some (pad1 +:+ core +:+ pad2) |}
  = pad1 +:+ core +:+ pad2.
Proof.
  intros Hpad1 Hpad2. split; [|split].
  - unfold Flat.LANDING_BASE. simpl. by apply trim_padded.
  - assert (Hblank : trim (pad1 +:+ pad2) = EmptyString)
      by exact (trim_padded pad1 EmptyString pad2 Hpad1 Hpad2).
    unfold Flat.click, Flat.LANDING_BASE.
    cbn [Flat.env_LANDING_BASE String_or_empty]. by rewrite Hblank.
  - unfold Sqlite.LANDING_BASE. simpl. apply or_else_empty.
Qed.

Lemma landing_base_trimmed_witness :
  all_chars is_white_space "  " = true /\
  all_chars is_white_space (String newline EmptyString) = true /\
  Flat.LANDING_BASE
    {| Flat.env_LANDING_BASE :=
         Some ("  " +:+ "https://example.com/land" +:+ String newline EmptyString) |}
  = "https://example.com/land".
Proof.
  split; [reflexivity|]. split; [reflexivity|].
  exact (proj1 (@landing_base_trimmed sample_runtime "  " "https://example.com/land"
                  (String newline EmptyString) sample_now empty_store sample_request
                  eq_refl eq_refl)).
Defined.

(** ** From the requests to the stats page *)

Section Report.
Context `{Runtime}.

Lemma hit_event_type (h : Hit) : type (hit_event h) = route_type (hit_route h).
Proof. unfold hit_event. by destruct (hit_route h). Qed.

Lemma of_type_app (t : string) (events1 events2 : list json_value) :
  Flat.of_type t (events1 ++ events2)
  = (Flat.of_type t events1 ++ Flat.of_type t events2)%list.
Proof. unfold Flat.of_type. apply omap_app. Qed.

Lemma of_type_hits (r : route) (hits : list Hit) :
  Flat.of_type (route_type r) (map (fun h => JObject (hit_event h)) hits)
  = events_of r hits.
Proof.
  unfold events_of. induction hits as [|h hits IH]; [done|].
  cbn [map List.filter]. unfold Flat.of_type in *. cbn [omap list_omap].
  rewrite IH, hit_event_type.
  by destruct (hit_route h), r.
Qed.

(** X17.  The stats page reports what was recorded: from a store of
    complete lines, after a sequence of tracking requests whose lines
    [JSON.parse] reads back, the three tables of [/stats] are the
    summaries of the clicks, the opens and the conversions the store held
    followed by those of the requests, when these summaries do not
    throw. *)
Theorem stats_reports_requests
    (env : Flat.Env) (st : Flat.Store) (lines : list string) (hits : list Hit)
    (clickRows openRows conversionRows : list Row) :
  holds_lines st lines ->
  Forall (fun h => JSON_parse (JSON_stringify (hit_event h))
                   = Ok (JObject (hit_event h))) hits ->
  Flat.summarize (Flat.of_type "click" (records_of lines) ++ events_of GET_r hits)
  = Ok clickRows ->
  Flat.summarize (Flat.of_type "open" (records_of lines) ++ events_of GET_o hits)
  = Ok openRows ->
  Flat.summarize (Flat.of_type "conv" (records_of lines) ++ events_of GET_conv hits)
  = Ok conversionRows ->
  Flat.stats (serve_all env st hits)
  = Sent {| status := 200; location := None;
            content_type := Some "text/html; charset=utf-8";
            cache_control := None;
            body := StatsPage clickRows openRows conversionRows |}.
Proof.
  intros Hst Hparse Hclicks Hopens Hconvs. unfold Flat.stats.
  rewrite (readEvents_holds_lines _ _ (serve_all_holds_lines env st lines hits Hst)).
  rewrite records_of_app, records_of_stringified by done.
  rewrite !of_type_app.
  rewrite (of_type_hits GET_r), (of_type_hits GET_o), (of_type_hits GET_conv).
  by rewrite Hclicks, Hopens, Hconvs.
Qed.

End Report.

Lemma stats_reports_requests_witness :
  let hits := [sample_hit; sample_open_hit; sample_hit] in
  let runtime := replay_runtime (map (@hit_event sample_runtime) hits) in
  holds_lines empty_store [] /\
  @Flat.stats runtime (@serve_all runtime landing_env empty_store hits)
  = Sent {| status := 200; location := None;
            content_type := Some "text/html; charset=utf-8";
            cache_control := None;
            body := StatsPage
                      [ {| row_campaign := "camp"; total := 2; unique := 1 |} ]
                      [ {| row_campaign := "(none)"; total := 1; unique := 1 |} ]
                      [] |}.
Proof.
  intros hits runtime.
  assert (Hst : holds_lines empty_store []) by (by repeat split).
  split; [exact Hst|].
  apply (@stats_reports_requests runtime landing_env empty_store [] hits _ _ _ Hst).
  - repeat constructor.
  - vm_compute. reflexivity.
  - vm_compute. reflexivity.
  - vm_compute. reflexivity.
Defined.

(** ** The tables of the sqlite variant *)

Section Tables.
Context `{Runtime}.

(** The rows a request inserts: none or one, in the table of its route,
    with the industry of its campaign. *)
Lemma sqlite_serve_step (env : Sqlite.Env) (db : Sqlite.Db) (h : SqliteHit) :
  exists new_clicks new_opens,
    Sqlite.clicks (fst (sqlite_serve env db h)) = (Sqlite.clicks db ++ new_clicks)%list /\
    Sqlite.opens (fst (sqlite_serve env db h)) = (Sqlite.opens db ++ new_opens)%list /\
    Sqlite.db_fault (fst (sqlite_serve env db h)) = Sqlite.db_fault db /\
    (length new_clicks + length new_opens <= 1)%nat /\
    Forall (fun r => Sqlite.industry r
                     = Sqlite.getIndustryFromCampaign (Sqlite.campaign r))
           (new_clicks ++ new_opens).
Proof.
  unfold sqlite_serve, Sqlite.click, Sqlite.open, Sqlite.run_insert.
  destruct (sq_table h);
    (destruct (Sqlite.hashIp (req_ip (sq_request h))) as [digest|e];
     [destruct (Sqlite.db_fault db) eqn:Hfault|]);
    cbn [fst].
  all: try (exists [], []; rewrite !app_nil_r; simpl;
            repeat split; (done || lia || constructor)).
  - eexists [_], []. rewrite app_nil_r. cbn [Sqlite.clicks Sqlite.opens Sqlite.db_fault].
    repeat split; try done. by repeat constructor.
  - eexists [], [_]. rewrite app_nil_r. cbn [Sqlite.clicks Sqlite.opens Sqlite.db_fault].
    repeat split; try done. by repeat constructor.
Qed.

(** X18.  The tables of the sqlite variant are append-only under the
    handlers: after a sequence of requests each table holds the rows it
    held, in place and unchanged, followed by new rows, at most one for
    each request; and in every new row the industry is the one derived
    from the row's campaign. *)
Theorem sqlite_tables_append_only
    (env : Sqlite.Env) (db : Sqlite.Db) (hits : list SqliteHit) :
  exists new_clicks new_opens,
    Sqlite.clicks (sqlite_serve_all env db hits) = (Sqlite.clicks db ++ new_clicks)%list /\
    Sqlite.opens (sqlite_serve_all env db hits) = (Sqlite.opens db ++ new_opens)%list /\
    (length new_clicks + length new_opens <= length hits)%nat /\
    Forall (fun r => Sqlite.industry r
                     = Sqlite.getIndustryFromCampaign (Sqlite.campaign r))
           (new_clicks ++ new_opens).
Proof.
  revert db. induction hits as [|h hits IH]; intros db.
  - exists [], []. rewrite !app_nil_r. by repeat split.
  - destruct (sqlite_serve_step env db h) as (c1 & o1 & Hc1 & Ho1 & _ & Hlen1 & Hind1).
    destruct (IH (fst (sqlite_serve env db h))) as (c2 & o2 & Hc2 & Ho2 & Hlen2 & Hind2).
    exists (c1 ++ c2)%list, (o1 ++ o2)%list. cbn [sqlite_serve_all length].
    rewrite Hc2, Ho2, Hc1, Ho1, !app_assoc, !length_app.
    repeat split; try done; [lia|].
    apply Forall_app in Hind1 as [? ?]. apply Forall_app in Hind2 as [? ?].
    rewrite <- !app_assoc. repeat (apply Forall_app; split); done.
Qed.

End Tables.

Example sqlite_two_requests :
  @sqlite_serve_all sample_runtime landing_env_sqlite empty_db
    [ {| sq_table := Sqlite.Clicks; sq_now := sample_now; sq_request := sample_request |};
      {| sq_table := Sqlite.Clicks; sq_now := sample_now;
         sq_request := no_campaign_request |} ]
  = {| Sqlite.clicks :=
         [ {| Sqlite.id := 1; Sqlite.lead_id := "lead"; Sqlite.campaign := "camp";
              Sqlite.industry := "camp"; Sqlite.ts := sample_now;
              Sqlite.user_agent := "curl/8.0"; Sqlite.ip_hash := sample_digest |};
           {| Sqlite.id := 2; Sqlite.lead_id := "lead"; Sqlite.campaign := EmptyString;
              Sqlite.industry := EmptyString; Sqlite.ts := sample_now;
              Sqlite.user_agent := EmptyString; Sqlite.ip_hash := sample_digest |} ];
       Sqlite.opens := []; Sqlite.db_fault := None |}.
Proof. reflexivity. Qed.
